(** * CubeFS metadata partition: ordered index and FSM handlers

    A shallow embedding of the meta-partition state machine
    (metanode/btree_memory.go, the dentry handlers and the inode handlers)
    together with the properties its specification states about it.

    Integers of the Go code are [Z] with the wrap-around of their width
    written out; Go strings are [string] compared bytewise; a Go pointer
    into an index is modelled by writing the changed item back at its key. *)

From Stdlib Require Import ZArith List Bool String Ascii Lia Sorted.
Import ListNotations.
Open Scope Z_scope.

(** ** Machine integers *)

Definition wrap64 (z : Z) : Z := z mod 2 ^ 64.
Definition wrap32 (z : Z) : Z := z mod 2 ^ 32.
Definition MaxUint64 : Z := 2 ^ 64 - 1.

(** ** Status bytes (proto.Op...): the closed set of section 6 of the spec *)

Inductive Status : Type :=
| OpOk | OpExistErr | OpNotExistErr | OpNotEmpty | OpArgMismatchErr
| OpInodeFullErr | OpNoSpaceErr | OpNotPerm | OpConflictExtentsErr
| OpDirQuota | OpTxInfoNotExistErr | OpTxDentryInfoNotExistErr
| OpTxInodeInfoNotExistErr | OpTxConflictErr | OpTxTimeoutErr
| OpTryOtherExtent | OpErr.

Definition Status_eqb (a b : Status) : bool :=
  match a, b with
  | OpOk, OpOk | OpExistErr, OpExistErr | OpNotExistErr, OpNotExistErr
  | OpNotEmpty, OpNotEmpty | OpArgMismatchErr, OpArgMismatchErr
  | OpInodeFullErr, OpInodeFullErr | OpNoSpaceErr, OpNoSpaceErr
  | OpNotPerm, OpNotPerm | OpConflictExtentsErr, OpConflictExtentsErr
  | OpDirQuota, OpDirQuota | OpTxInfoNotExistErr, OpTxInfoNotExistErr
  | OpTxDentryInfoNotExistErr, OpTxDentryInfoNotExistErr
  | OpTxInodeInfoNotExistErr, OpTxInodeInfoNotExistErr
  | OpTxConflictErr, OpTxConflictErr | OpTxTimeoutErr, OpTxTimeoutErr
  | OpTryOtherExtent, OpTryOtherExtent | OpErr, OpErr => true
  | _, _ => false
  end.

Lemma Status_eqb_eq (a b : Status) : Status_eqb a b = true <-> a = b.
Proof. destruct a, b; simpl; split; intro H; congruence. Qed.

Lemma Status_eqb_refl (a : Status) : Status_eqb a a = true.
Proof. now apply Status_eqb_eq. Qed.

Lemma Status_eqb_neq (a b : Status) : Status_eqb a b = false <-> a <> b.
Proof.
  split.
  - intros H E. apply Status_eqb_eq in E. congruence.
  - intro H. destruct (Status_eqb a b) eqn:E; [ | reflexivity ].
    apply Status_eqb_eq in E. contradiction.
Qed.

(** ** Bytewise order of Go strings *)

Lemma ascii_compare_refl (a : ascii) : Ascii.compare a a = Eq.
Proof. unfold Ascii.compare. apply N.compare_refl. Qed.

Lemma string_compare_refl (s : string) : String.compare s s = Eq.
Proof.
  induction s as [ | a s IH ]; simpl; [ reflexivity | ].
  now rewrite ascii_compare_refl.
Qed.

Lemma string_ltb_irrefl (s : string) : String.ltb s s = false.
Proof. unfold String.ltb. now rewrite string_compare_refl. Qed.

Lemma ascii_compare_lt_trans (a b c : ascii) :
  Ascii.compare a b = Lt -> Ascii.compare b c = Lt -> Ascii.compare a c = Lt.
Proof.
  unfold Ascii.compare. rewrite !N.compare_lt_iff. apply N.lt_trans.
Qed.

Lemma string_compare_lt_trans (s1 : string) :
  forall s2 s3, String.compare s1 s2 = Lt -> String.compare s2 s3 = Lt ->
                String.compare s1 s3 = Lt.
Proof.
  induction s1 as [ | a s1 IH ]; intros [ | b s2 ] [ | c s3 ]; simpl;
    try congruence.
  destruct (Ascii.compare a b) eqn:Eab; try discriminate.
  - apply Ascii.compare_eq_iff in Eab. subst b.
    destruct (Ascii.compare a c) eqn:Eac; try congruence.
    intros H1 H2. eauto.
  - intros _. destruct (Ascii.compare b c) eqn:Ebc; try discriminate.
    + apply Ascii.compare_eq_iff in Ebc. subst c. now rewrite Eab.
    + intros _. now rewrite (ascii_compare_lt_trans _ _ _ Eab Ebc).
Qed.

Lemma string_ltb_trans (s1 s2 s3 : string) :
  String.ltb s1 s2 = true -> String.ltb s2 s3 = true -> String.ltb s1 s3 = true.
Proof.
  unfold String.ltb. intros H1 H2.
  destruct (String.compare s1 s2) eqn:E1; try discriminate.
  destruct (String.compare s2 s3) eqn:E2; try discriminate.
  now rewrite (string_compare_lt_trans _ _ _ E1 E2).
Qed.

Lemma string_ltb_total (s1 s2 : string) :
  String.ltb s1 s2 = false -> String.ltb s2 s1 = false -> s1 = s2.
Proof.
  unfold String.ltb. rewrite (String.compare_antisym s2 s1).
  destruct (String.compare s1 s2) eqn:E; simpl; try discriminate.
  intros _ _. now apply String.compare_eq_iff.
Qed.

Lemma string_ltb_empty (s : string) : String.ltb s EmptyString = false.
Proof. now destruct s. Qed.

(** The errors the index wrappers and the byte reader return. *)
Inductive error : Type := existsError | ErrUnexpectedEOF.

(** ** The ordered index *)

(** btree.Item: the only thing the tree asks of an item is [Less].  The
    three laws say that [Less] is a strict weak order, which is what the
    tree relies on to treat two items as the same key. *)
Class BtreeItem (A : Type) := {
  Less : A -> A -> bool;
  Less_irrefl : forall x, Less x x = false;
  Less_trans : forall x y z, Less x y = true -> Less y z = true -> Less x z = true;
  Less_cotrans : forall x y z, Less x z = true -> Less x y = true \/ Less y z = true
}.

Section Tree.
Context {A : Type} `{BtreeItem A}.

(** Two items are the same key when neither is less than the other. *)
Definition sameKey (x y : A) : bool := negb (Less x y) && negb (Less y x).

(** Modelled from the spec: the tree of util/btree (not among the
    sources), "a range-scannable key to value map" iterated "in strict
    key order": the items in ascending order, one per key. *)
Definition tree := list A.

Definition tree_Get (key : A) (t : tree) : option A :=
  find (fun x => sameKey x key) t.

Definition tree_Has (key : A) (t : tree) : bool :=
  match tree_Get key t with Some _ => true | None => false end.

Definition tree_drop (key : A) (t : tree) : tree :=
  filter (fun x => negb (sameKey x key)) t.

Fixpoint tree_put (item : A) (t : tree) : tree :=
  match t with
  | [] => [item]
  | x :: r => if Less item x then item :: x :: r else x :: tree_put item r
  end.

(** Adds the item; an item of the same key is removed and returned. *)
Definition tree_ReplaceOrInsert (item : A) (t : tree) : tree * option A :=
  (tree_put item (tree_drop item t), tree_Get item t).

(** Removes the item of that key and returns it. *)
Definition tree_Delete (key : A) (t : tree) : tree * option A :=
  (tree_drop key t, tree_Get key t).

(** The items of [greaterOrEqual, lessThan), in the order of the tree. *)
Definition tree_range (greaterOrEqual lessThan : A) (t : tree) : list A :=
  filter (fun x => negb (Less x greaterOrEqual) && Less x lessThan) t.

(** Iteration: the visitor is called on each item with the state its
    closure captured, until it answers false. *)
Fixpoint ascend {S : Type} (iterator : A -> S -> S * bool) (l : list A) (s : S) : S :=
  match l with
  | [] => s
  | x :: r => let (s', more) := iterator x s in
              if more then ascend iterator r s' else s'
  end.

(** A write through a pointer that Get or CopyGet returned: the stored
    item of that key becomes the changed one.  The key fields are never
    written, so the position in the tree is kept. *)
Definition tree_store (item : A) (t : tree) : tree :=
  map (fun x => if sameKey x item then item else x) t.

(** Ascending with one item per key. *)
Definition tree_wf (t : tree) : Prop :=
  StronglySorted (fun x y => Less x y = true) t.

(** *** btree_memory.go: the locked wrapper

    The read-write mutex only serialises the calls; the state machine
    applies one command at a time, so each method is its body. *)

Definition BTree := tree.

Definition BTree_Get (key : A) (b : BTree) : option A := tree_Get key b.

Definition BTree_CopyGet (key : A) (b : BTree) : option A := tree_Get key b.

Definition BTree_Has (key : A) (b : BTree) : bool := tree_Has key b.

Definition BTree_Delete (key : A) (b : BTree) : BTree * option A :=
  tree_Delete key b.

Definition BTree_ReplaceOrInsert (key : A) (replace : bool) (b : BTree)
  : BTree * option A * bool :=
  if replace then
    let (t, item) := tree_ReplaceOrInsert key b in (t, item, true)
  else
    match tree_Get key b with
    | None => let (t, item) := tree_ReplaceOrInsert key b in (t, item, true)
    | Some item => (b, Some item, false)
    end.

(** InodeBTree.Create, DentryBTree.Create and the four others: one body. *)
Definition BTree_Create (item : A) (replace : bool) (b : BTree) : BTree * option error :=
  let '(t, _, ok) := BTree_ReplaceOrInsert item replace b in
  if ok then (t, None) else (t, Some existsError).

Definition BTree_AscendRange {S : Type} (greaterOrEqual lessThan : A)
           (iterator : A -> S -> S * bool) (b : BTree) (s : S) : S :=
  ascend iterator (tree_range greaterOrEqual lessThan b) s.

Definition BTree_Len (b : BTree) : Z := Z.of_nat (List.length b).

End Tree.

(** ** Entities *)

(** Modelled from the spec: proto.IsDir and proto.OsModeType (package proto
    is not among the sources).  A type word is a Go file mode; its
    "high-level type" is the part under os.ModeType, and a directory is
    the word with os.ModeDir (bit 31) set. *)
Definition ModeType : Z := 0x8F280000.
Definition IsDir (mode : Z) : bool := Z.testbit mode 31.
Definition OsModeType (mode : Z) : Z := Z.land mode ModeType.

(** An extent key: "(fileOffset, length, partitionId, extentId,
    extentOffset, crc, snapSeq?)"; [ek_IsSplit] is the flag SetSplit writes. *)
Record ExtentKey : Type := mkExtentKey {
  ek_FileOffset : Z;
  ek_PartitionId : Z;
  ek_ExtentId : Z;
  ek_ExtentOffset : Z;
  ek_Size : Z;
  ek_CRC : Z;
  ek_IsSplit : bool
}.

Definition ek_SetSplit (split : bool) (k : ExtentKey) : ExtentKey :=
  mkExtentKey (ek_FileOffset k) (ek_PartitionId k) (ek_ExtentId k)
              (ek_ExtentOffset k) (ek_Size k) (ek_CRC k) split.

(** A historical snapshot of an inode, one element of its version chain. *)
Record InodeSnap : Type := mkInodeSnap {
  snap_verSeq : Z;
  snap_NLink : Z;
  snap_Size : Z;
  snap_ModifyTime : Z;
  snap_Extents : list ExtentKey
}.

(** Modelled from the spec: the Inode entity (inode.go is not among the
    sources), section 3: id, type, uid, size, nlink, times, extents,
    version chain (newest first) and the deleteMark bit. *)
Record Inode : Type := mkInode {
  ino_Inode : Z;
  ino_Type : Z;
  ino_Uid : Z;
  ino_Size : Z;
  ino_AccessTime : Z;
  ino_ModifyTime : Z;
  ino_NLink : Z;
  ino_deleteMark : bool;
  ino_Extents : list ExtentKey;
  ino_verSeq : Z;
  ino_multiVersions : list InodeSnap
}.

(** NewInode(ino, t): the inode a handler builds as a lookup key; the
    handlers below read nothing but its id. *)
Definition NewInode (ino t : Z) : Inode :=
  mkInode ino t 0 0 0 0 (if IsDir t then 2 else 1) false [] 0 [].

Definition ino_set_NLink (n : Z) (i : Inode) : Inode :=
  mkInode (ino_Inode i) (ino_Type i) (ino_Uid i) (ino_Size i) (ino_AccessTime i)
          (ino_ModifyTime i) n (ino_deleteMark i) (ino_Extents i) (ino_verSeq i)
          (ino_multiVersions i).

Definition ino_set_ModifyTime (t : Z) (i : Inode) : Inode :=
  mkInode (ino_Inode i) (ino_Type i) (ino_Uid i) (ino_Size i) (ino_AccessTime i)
          t (ino_NLink i) (ino_deleteMark i) (ino_Extents i) (ino_verSeq i)
          (ino_multiVersions i).



(** Modelled from the spec: the Inode methods the handlers call. *)
Definition ShouldDelete (i : Inode) : bool := ino_deleteMark i.
Definition getVer (i : Inode) : Z := ino_verSeq i.

(** "If the target's stored seq is older, its current contents are
    migrated into its version chain before the mutation proceeds." *)
Definition CreateVer (ver : Z) (i : Inode) : Inode :=
  mkInode (ino_Inode i) (ino_Type i) (ino_Uid i) (ino_Size i) (ino_AccessTime i)
          (ino_ModifyTime i) (ino_NLink i) (ino_deleteMark i) (ino_Extents i) ver
          (mkInodeSnap (ino_verSeq i) (ino_NLink i) (ino_Size i) (ino_ModifyTime i)
                       (ino_Extents i) :: ino_multiVersions i).

(** nlink++ on the live layer; NLink is a uint32. *)
Definition IncNLink (verSeq : Z) (i : Inode) : Inode :=
  let i := if getVer i <? verSeq then CreateVer verSeq i else i in
  ino_set_NLink (wrap32 (ino_NLink i + 1)) i.

(** nlink--, never below zero ("nlink >= 0"). *)
Definition DecNLink (i : Inode) : Inode :=
  if 0 <? ino_NLink i then ino_set_NLink (ino_NLink i - 1) i else i.

(** mtime = now. *)
Definition SetMtime (now : Z) (i : Inode) : Inode := ino_set_ModifyTime now i.

(** A historical binding of a dentry; the sequence field carries the
    delete marker in its top bit. *)
Record DentrySnap : Type := mkDentrySnap {
  ds_Inode : Z;
  ds_Type : Z;
  ds_VerSeq : Z
}.

(** Modelled from the spec: the Dentry entity (dentry.go is not among the
    sources), section 3: key (parentInode, name), child inode, child type,
    version chain (newest first).  The sequence field [den_VerSeq] holds
    the snapshot sequence and, in bit 63, the "version delete-marker". *)
Record Dentry : Type := mkDentry {
  den_ParentId : Z;
  den_Name : string;
  den_Inode : Z;
  den_Type : Z;
  den_VerSeq : Z;
  den_dentryList : list DentrySnap
}.

Definition getSeqFiled (d : Dentry) : Z := den_VerSeq d.
Definition getVerSeq (d : Dentry) : Z := Z.land (den_VerSeq d) (2 ^ 63 - 1).
Definition isDeleted (d : Dentry) : bool := Z.testbit (den_VerSeq d) 63.
Definition getSnapListLen (d : Dentry) : Z := Z.of_nat (List.length (den_dentryList d)).
Definition setVerSeq (verSeq : Z) (d : Dentry) : Dentry :=
  mkDentry (den_ParentId d) (den_Name d) (den_Inode d) (den_Type d) verSeq
           (den_dentryList d).

(** "Walks back the version chain to the newest layer with layerSeq <= seq
    that is not marked deleted at seq"; seq 0 reads the live layer. *)
Definition getDentryFromVerList (d : Dentry) (verSeq : Z) : option Dentry :=
  if (verSeq =? 0) || (getVerSeq d <=? verSeq) then
    if isDeleted d then None else Some d
  else
    match find (fun l => Z.land (ds_VerSeq l) (2 ^ 63 - 1) <=? verSeq) (den_dentryList d) with
    | Some l =>
        if Z.testbit (ds_VerSeq l) 63 then None
        else Some (mkDentry (den_ParentId d) (den_Name d) (ds_Inode l) (ds_Type l)
                            (ds_VerSeq l) [])
    | None => None
    end.

(** Modelled from the spec: an extended-attribute entity, keyed by inode
    id, "a small map of name to value bytes". *)
Record Extend : Type := mkExtend {
  ext_inode : Z;
  ext_dataMap : list (string * string)
}.

(** Modelled from the spec: the Less methods of the three entities; the
    keys are inode-id, (parentInode, name) and inode-id. *)
Definition Inode_Less (i than : Inode) : bool := ino_Inode i <? ino_Inode than.

Definition Dentry_Less (d than : Dentry) : bool :=
  (den_ParentId d <? den_ParentId than)
  || ((den_ParentId d =? den_ParentId than) && String.ltb (den_Name d) (den_Name than)).

Definition Extend_Less (e than : Extend) : bool := ext_inode e <? ext_inode than.

#[export, refine] Instance Inode_Item : BtreeItem Inode := {| Less := Inode_Less |}.
Proof.
  - intro x. apply Z.ltb_irrefl.
  - unfold Inode_Less. intros x y z. rewrite !Z.ltb_lt. lia.
  - unfold Inode_Less. intros x y z. rewrite !Z.ltb_lt. lia.
Defined.

#[export, refine] Instance Extend_Item : BtreeItem Extend := {| Less := Extend_Less |}.
Proof.
  - intro x. apply Z.ltb_irrefl.
  - unfold Extend_Less. intros x y z. rewrite !Z.ltb_lt. lia.
  - unfold Extend_Less. intros x y z. rewrite !Z.ltb_lt. lia.
Defined.

Lemma Dentry_Less_spec (d e : Dentry) :
  Dentry_Less d e = true <->
  den_ParentId d < den_ParentId e
  \/ (den_ParentId d = den_ParentId e /\ String.ltb (den_Name d) (den_Name e) = true).
Proof.
  unfold Dentry_Less.
  rewrite orb_true_iff, andb_true_iff, Z.ltb_lt, Z.eqb_eq. tauto.
Qed.

#[export, refine] Instance Dentry_Item : BtreeItem Dentry := {| Less := Dentry_Less |}.
Proof.
  - intro x. unfold Dentry_Less.
    now rewrite Z.ltb_irrefl, Z.eqb_refl, string_ltb_irrefl.
  - intros x y z. rewrite !Dentry_Less_spec.
    intros [H1 | [H1 H2]] [H3 | [H3 H4]]; try (left; lia).
    right. split; [ lia | ]. eapply string_ltb_trans; eauto.
  - intros x y z. rewrite !Dentry_Less_spec. intros [H1 | [H1 H2]].
    + destruct (Z.lt_trichotomy (den_ParentId x) (den_ParentId y)) as [L | [E | G]].
      * now left; left.
      * right. left. lia.
      * right. left. lia.
    + destruct (Z.lt_trichotomy (den_ParentId x) (den_ParentId y)) as [L | [E | G]].
      * now left; left.
      * destruct (String.ltb (den_Name x) (den_Name y)) eqn:Lxy.
        { left. right. now split. }
        destruct (String.ltb (den_Name y) (den_Name z)) eqn:Lyz.
        { right. right. split; [ lia | reflexivity ]. }
        destruct (String.ltb (den_Name y) (den_Name x)) eqn:Lyx.
        { rewrite (string_ltb_trans _ _ _ Lyx H2) in Lyz. discriminate. }
        rewrite (string_ltb_total _ _ Lxy Lyx) in H2. congruence.
      * right. left. lia.
Defined.

(** ** Responses and requests *)

Record InodeResponse : Type := mkInodeResponse {
  ir_Status : Status;
  ir_Msg : option Inode
}.

Record DentryResponse : Type := mkDentryResponse {
  dr_Status : Status;
  dr_Msg : option Dentry
}.

(** The zero Dentry, [&Dentry{}]. *)
Definition emptyDentry : Dentry := mkDentry 0 EmptyString 0 0 0 [].

(** NewDentryResponse: Msg is a fresh zero dentry, Status the zero byte,
    which every caller overwrites before returning. *)
Definition NewDentryResponse (st : Status) : DentryResponse :=
  mkDentryResponse st (Some emptyDentry).

(** NewInodeResponse: Msg is nil. *)
Definition NewInodeResponse (st : Status) : InodeResponse :=
  mkInodeResponse st None.

(** proto.Dentry, the element of a readdir answer. *)
Record proto_Dentry : Type := mkProtoDentry {
  pd_Name : string;
  pd_Inode : Z;
  pd_Type : Z
}.

Record ReadDirLimitReq : Type := mkReadDirLimitReq {
  rdl_ParentID : Z;
  rdl_Marker : string;
  rdl_Limit : Z;
  rdl_VerSeq : Z;
  rdl_VerOpt : Z
}.

Record SetattrRequest : Type := mkSetattrRequest {
  sa_Inode : Z;
  sa_Mode : Z;
  sa_Uid : Z;
  sa_Gid : Z;
  sa_ModifyTime : Z;
  sa_AccessTime : Z;
  sa_Valid : Z
}.

(** ** Transactions *)

Record TxDentryInfo : Type := mkTxDentryInfo {
  tdi_ParentId : Z;
  tdi_Name : string;
  tdi_TxID : string
}.

(** TxInfo: the transaction id and its dentry infos.  The Go map is keyed
    by the string GetKey builds from (parent, name); the pair is the key
    here. *)
Record TxInfo : Type := mkTxInfo {
  tx_TxID : string;
  tx_TxType : Z;
  tx_TxDentryInfos : list ((Z * string) * TxDentryInfo)
}.

Record TxDentry : Type := mkTxDentry {
  txd_Dentry : Dentry;
  txd_TxInfo : TxInfo
}.

Inductive TxRbType : Type := TxNoOp | TxUpdate | TxDelete | TxAdd.

Record TxRollbackDentry : Type := mkTxRollbackDentry {
  rb_dentry : Dentry;
  rb_txDentryInfo : TxDentryInfo;
  rb_rbType : TxRbType
}.

Definition NewTxRollbackDentry (dentry : Dentry) (info : TxDentryInfo) (t : TxRbType)
  : TxRollbackDentry := mkTxRollbackDentry dentry info t.

Inductive TxState : Type := TxDone | TxUnknown.

Fixpoint TxDentryInfos_get (k : Z * string) (m : list ((Z * string) * TxDentryInfo))
  : option TxDentryInfo :=
  match m with
  | [] => None
  | (k', v) :: r =>
      if (fst k =? fst k') && String.eqb (snd k) (snd k') then Some v
      else TxDentryInfos_get k r
  end.

(** Modelled from the spec: the rollback ledger of the transaction
    resource (transaction.go is not among the sources), "an indexed ledger
    keyed by txId and entity"; an insert that finds a record of the same
    (entity, txId) answers Exists. *)
Definition rbDentry_is (pid : Z) (name txID : string) (r : TxRollbackDentry) : bool :=
  (tdi_ParentId (rb_txDentryInfo r) =? pid)
  && String.eqb (tdi_Name (rb_txDentryInfo r)) name
  && String.eqb (tdi_TxID (rb_txDentryInfo r)) txID.

Definition ledger_add (rb : TxRollbackDentry) (l : list TxRollbackDentry)
  : list TxRollbackDentry * Status :=
  let i := rb_txDentryInfo rb in
  if existsb (rbDentry_is (tdi_ParentId i) (tdi_Name i) (tdi_TxID i)) l
  then (l, OpExistErr)
  else (l ++ [rb], OpOk).

Definition ledger_delete (pid : Z) (name txID : string) (l : list TxRollbackDentry)
  : list TxRollbackDentry :=
  filter (fun r => negb (rbDentry_is pid name txID r)) l.


Definition freeList_Remove (ino : Z) (fl : list Z) : list Z :=
  filter (fun x => negb (x =? ino)) fl.

(** int64(x) of a uint64, and the int64 difference of two of them. *)
Definition int64 (z : Z) : Z := (z + 2 ^ 63) mod 2 ^ 64 - 2 ^ 63.

(** Big-endian uint64 of eight bytes (binary.Read, binary.BigEndian). *)
Definition be64 (bs : list Byte.byte) : Z :=
  fold_left (fun acc b => acc * 256 + Z.of_N (Byte.to_N b)) bs 0.

(** ** The meta partition *)

Section Partition.

(** The quota accounting of uids, the per-quota aggregate and the
    uniqueness checker are collaborators whose code is not among the
    sources; their states are kept abstract. *)
Context {UidManager QuotaManager UniqChecker : Type}.

Record metaPartition : Type := mkMetaPartition {
  inodeTree : @BTree Inode;
  dentryTree : @BTree Dentry;
  extendTree : @BTree Extend;
  freeList : list Z;
  verSeq : Z;
  multiVersionList : list (Z * Z);
  volType : Z;
  extDelCh : list (list ExtentKey);
  uidManager : UidManager;
  mqMgr : QuotaManager;
  uniqChecker : UniqChecker;
  txRbDentryTree : list TxRollbackDentry;
  txRbInodeTree : list (Z * string);
  txTable : list (string * TxState)
}.

Definition set_inodeTree (t : @BTree Inode) (mp : metaPartition) : metaPartition :=
  mkMetaPartition t (dentryTree mp) (extendTree mp) (freeList mp) (verSeq mp)
    (multiVersionList mp) (volType mp) (extDelCh mp) (uidManager mp) (mqMgr mp)
    (uniqChecker mp) (txRbDentryTree mp) (txRbInodeTree mp) (txTable mp).

Definition set_dentryTree (t : @BTree Dentry) (mp : metaPartition) : metaPartition :=
  mkMetaPartition (inodeTree mp) t (extendTree mp) (freeList mp) (verSeq mp)
    (multiVersionList mp) (volType mp) (extDelCh mp) (uidManager mp) (mqMgr mp)
    (uniqChecker mp) (txRbDentryTree mp) (txRbInodeTree mp) (txTable mp).

Definition set_extendTree (t : @BTree Extend) (mp : metaPartition) : metaPartition :=
  mkMetaPartition (inodeTree mp) (dentryTree mp) t (freeList mp) (verSeq mp)
    (multiVersionList mp) (volType mp) (extDelCh mp) (uidManager mp) (mqMgr mp)
    (uniqChecker mp) (txRbDentryTree mp) (txRbInodeTree mp) (txTable mp).

Definition set_freeList (fl : list Z) (mp : metaPartition) : metaPartition :=
  mkMetaPartition (inodeTree mp) (dentryTree mp) (extendTree mp) fl (verSeq mp)
    (multiVersionList mp) (volType mp) (extDelCh mp) (uidManager mp) (mqMgr mp)
    (uniqChecker mp) (txRbDentryTree mp) (txRbInodeTree mp) (txTable mp).

Definition set_extDelCh (ch : list (list ExtentKey)) (mp : metaPartition) : metaPartition :=
  mkMetaPartition (inodeTree mp) (dentryTree mp) (extendTree mp) (freeList mp) (verSeq mp)
    (multiVersionList mp) (volType mp) ch (uidManager mp) (mqMgr mp)
    (uniqChecker mp) (txRbDentryTree mp) (txRbInodeTree mp) (txTable mp).

Definition set_uidManager (u : UidManager) (mp : metaPartition) : metaPartition :=
  mkMetaPartition (inodeTree mp) (dentryTree mp) (extendTree mp) (freeList mp) (verSeq mp)
    (multiVersionList mp) (volType mp) (extDelCh mp) u (mqMgr mp)
    (uniqChecker mp) (txRbDentryTree mp) (txRbInodeTree mp) (txTable mp).

Definition set_mqMgr (q : QuotaManager) (mp : metaPartition) : metaPartition :=
  mkMetaPartition (inodeTree mp) (dentryTree mp) (extendTree mp) (freeList mp) (verSeq mp)
    (multiVersionList mp) (volType mp) (extDelCh mp) (uidManager mp) q
    (uniqChecker mp) (txRbDentryTree mp) (txRbInodeTree mp) (txTable mp).


Definition set_txRbDentryTree (l : list TxRollbackDentry) (mp : metaPartition)
  : metaPartition :=
  mkMetaPartition (inodeTree mp) (dentryTree mp) (extendTree mp) (freeList mp) (verSeq mp)
    (multiVersionList mp) (volType mp) (extDelCh mp) (uidManager mp) (mqMgr mp)
    (uniqChecker mp) l (txRbInodeTree mp) (txTable mp).

Definition set_versions (v : Z) (l : list (Z * Z)) (mp : metaPartition) : metaPartition :=
  mkMetaPartition (inodeTree mp) (dentryTree mp) (extendTree mp) (freeList mp) v
    l (volType mp) (extDelCh mp) (uidManager mp) (mqMgr mp)
    (uniqChecker mp) (txRbDentryTree mp) (txRbInodeTree mp) (txTable mp).

(** [mp.extDelCh <- eks]: one reclaim event on the channel. *)
Definition send_extDelCh (eks : list ExtentKey) (mp : metaPartition) : metaPartition :=
  set_extDelCh (extDelCh mp ++ [eks]) mp.

(** A write through the pointer to a stored inode. *)
Definition store_inode (i : Inode) (mp : metaPartition) : metaPartition :=
  set_inodeTree (tree_store i (inodeTree mp)) mp.

(** Modelled from the spec: txInRMDone reads the idempotency table, which
    "records txId -> {Done | Unknown}". *)
Definition txInRMDone (mp : metaPartition) (txId : string) : bool :=
  match find (fun e => String.eqb (fst e) txId) (txTable mp) with
  | Some (_, TxDone) => true
  | _ => false
  end.

Definition addTxRollbackDentry (mp : metaPartition) (rb : TxRollbackDentry)
  : metaPartition * Status :=
  let (l, st) := ledger_add rb (txRbDentryTree mp) in (set_txRbDentryTree l mp, st).

Definition deleteTxRollbackDentry (mp : metaPartition) (pid : Z) (name txID : string)
  : metaPartition :=
  set_txRbDentryTree (ledger_delete pid name txID (txRbDentryTree mp)) mp.


(** *** What the handlers call and the sources do not contain

    The clock, and the methods of inode.go, dentry.go, multi_ver.go and of
    the managers whose behaviour the results below do not depend on.  A
    method that writes its receiver returns the written receiver. *)

(** The reading of the clock while the command is applied. *)
Variable now : Z.

Variable isInitSnapVer : Z -> bool.
Variable FlagsVerDelDir : Z.
Variable isEffective : Dentry -> Z -> bool.
(** den.deleteVerSnapshot(delVerSeq, mpVerSeq, verList): the written
    dentry, then the found dentry, doMore and clean. *)
Variable deleteVerSnapshot :
  Dentry -> Z -> Z -> list (Z * Z) -> Dentry * option Dentry * bool * bool.
(** mp.checkAndUpdateVerList(seq), on the partition's verSeq and version
    list: the two after the call, and whether it failed. *)
Variable checkAndUpdateVerList : Z -> list (Z * Z) -> Z -> Z * list (Z * Z) * bool.

Variable addUidSpace : UidManager -> Z -> Z -> list ExtentKey -> UidManager * Status.
Variable minusUidSpace : UidManager -> Z -> Z -> list ExtentKey -> UidManager.
Variable doMinusUidSpace : UidManager -> Z -> Z -> Z -> UidManager.
(** mp.updateUsedInfo(size, files, ino) reads the quota ids of the inode
    in the extend index and moves the aggregate. *)
Variable updateUsedInfo : @BTree Extend -> QuotaManager -> Z -> Z -> Z -> QuotaManager.
Variable legalIn : UniqChecker -> Z -> UniqChecker * bool.

Variable IsTinyExtent : Z -> bool.
Variable ExtentSize : Z.
Variable AppendExtentWithCheck :
  Inode -> Z -> list (Z * Z) -> Z -> ExtentKey -> Z -> list ExtentKey -> Z
  -> Inode * list ExtentKey * Status.
Variable SplitExtentWithCheck :
  Inode -> Z -> list (Z * Z) -> Z -> ExtentKey -> Z -> Z
  -> Inode * list ExtentKey * Status.
Variable DecSplitExts : Inode -> list ExtentKey -> Inode * list ExtentKey.
(** i.CreateLowerVersion(ver, verList): the inode and whether it failed. *)
Variable CreateLowerVersion : Inode -> Z -> list (Z * Z) -> Inode * bool.
(** i.ExtentsTruncate(size, ct, doOnLastKey): the inode, the dropped keys
    and the key doOnLastKey was called on, if it was. *)
Variable ExtentsTruncate : Inode -> Z -> Z -> Inode * list ExtentKey * option ExtentKey.
Variable RestoreExts2NextLayer :
  Inode -> list ExtentKey -> Z -> Z -> Inode * list ExtentKey * bool.
Variable unlinkTopLayer :
  Inode -> Inode -> Z -> list (Z * Z) -> Inode * list ExtentKey * bool * Status.
Variable unlinkVerInList :
  Inode -> Inode -> Z -> list (Z * Z) -> Inode * list ExtentKey * bool * Status.
Variable SetAttr : Inode -> SetattrRequest -> Inode.

Definition mp_updateUsedInfo (size files ino : Z) (mp : metaPartition) : metaPartition :=
  set_mqMgr (updateUsedInfo (extendTree mp) (mqMgr mp) size files ino) mp.

(** *** Dentry handlers *)

Definition fsmCreateDentry (mp : metaPartition) (dentry : Dentry) (forceUpdate : bool)
  : metaPartition * Status :=
  let parent : option Inode + Status :=
    if negb forceUpdate then
      match BTree_CopyGet (NewInode (den_ParentId dentry) 0) (inodeTree mp) with
      | None => inr OpNotExistErr
      | Some parIno =>
          if ShouldDelete parIno then inr OpNotExistErr
          else if negb (IsDir (ino_Type parIno)) then inr OpArgMismatchErr
          else inl (Some parIno)
      end
    else inl None in
  match parent with
  | inr status => (mp, status)
  | inl parIno =>
      (* parIno.IncNLink(mp.verSeq); parIno.SetMtime(), under !forceUpdate *)
      let link (m : metaPartition) : metaPartition :=
        match parIno with
        | Some p => store_inode (SetMtime now (IncNLink (verSeq m) p)) m
        | None => m
        end in
      match BTree_ReplaceOrInsert dentry false (dentryTree mp) with
      | (_, Some d, false) =>
          if isDeleted d then
            let d1 := mkDentry (den_ParentId d) (den_Name d) (den_Inode dentry)
                               (den_Type d) (den_VerSeq d) (den_dentryList d) in
            let d2 := setVerSeq (getSeqFiled dentry) d1 in
            let d3 := mkDentry (den_ParentId dentry) (den_Name d2) (den_Inode d2)
                               (den_Type dentry) (den_VerSeq d2) (den_dentryList d2) in
            (link (set_dentryTree (tree_store d3 (dentryTree mp)) mp), OpOk)
          else if negb (OsModeType (den_Type dentry) =? OsModeType (den_Type d)) then
            (mp, OpArgMismatchErr)
          else if (den_ParentId dentry =? den_ParentId d)
                  && String.eqb (den_Name dentry) (den_Name d)
                  && (den_Inode dentry =? den_Inode d) then
            (mp, OpOk)
          else (mp, OpExistErr)
      | (t, _, _) =>
          (* ok: the dentry went in (ok = false always comes with the item found) *)
          (link (set_dentryTree t mp), OpOk)
      end
  end.

Definition fsmTxCreateDentry (mp : metaPartition) (txDentry : TxDentry)
  : metaPartition * Status :=
  if txInRMDone mp (tx_TxID (txd_TxInfo txDentry)) then (mp, OpTxInfoNotExistErr)
  else
    let dentry := txd_Dentry txDentry in
    match TxDentryInfos_get (den_ParentId dentry, den_Name dentry)
                            (tx_TxDentryInfos (txd_TxInfo txDentry)) with
    | None => (mp, OpTxDentryInfoNotExistErr)
    | Some txDenInfo =>
        let rbDentry := NewTxRollbackDentry dentry txDenInfo TxDelete in
        let (mp1, status) := addTxRollbackDentry mp rbDentry in
        if Status_eqb status OpExistErr then (mp1, OpOk)
        else if negb (Status_eqb status OpOk) then (mp1, status)
        else
          let (mp2, status) := fsmCreateDentry mp1 dentry false in
          (* the deferred function *)
          if negb (Status_eqb status OpOk) then
            (deleteTxRollbackDentry mp2 (tdi_ParentId txDenInfo) (tdi_Name txDenInfo)
                                    (tdi_TxID txDenInfo), status)
          else (mp2, status)
    end.

Definition fsmTxDeleteDentry (mp : metaPartition) (txDentry : TxDentry)
  : metaPartition * DentryResponse :=
  if txInRMDone mp (tx_TxID (txd_TxInfo txDentry)) then
    (mp, NewDentryResponse OpTxInfoNotExistErr)
  else
    let tmpDen := txd_Dentry txDentry in
    match TxDentryInfos_get (den_ParentId tmpDen, den_Name tmpDen)
                            (tx_TxDentryInfos (txd_TxInfo txDentry)) with
    | None => (mp, NewDentryResponse OpTxDentryInfoNotExistErr)
    | Some txDenInfo =>
        let rbDentry := NewTxRollbackDentry tmpDen txDenInfo TxAdd in
        let (mp1, status) := addTxRollbackDentry mp rbDentry in
        if Status_eqb status OpExistErr then (mp1, NewDentryResponse OpOk)
        else if negb (Status_eqb status OpOk) then (mp1, NewDentryResponse status)
        else
          let (mp2, resp) :=
            match BTree_Get tmpDen (dentryTree mp1) with
            | Some item =>
                if negb (den_Inode item =? den_Inode tmpDen) then
                  (mp1, NewDentryResponse OpNotExistErr)
                else
                  (set_dentryTree (fst (BTree_Delete tmpDen (dentryTree mp1))) mp1,
                   mkDentryResponse OpOk (Some item))
            | None => (mp1, NewDentryResponse OpNotExistErr)
            end in
          (* the deferred function *)
          if negb (Status_eqb (dr_Status resp) OpOk) then
            (deleteTxRollbackDentry mp2 (tdi_ParentId txDenInfo) (tdi_Name txDenInfo)
                                    (tdi_TxID txDenInfo), resp)
          else (mp2, resp)
    end.

Definition fsmDeleteDentry (mp : metaPartition) (denParm : Dentry) (checkInode : bool)
  : metaPartition * DentryResponse :=
  let '(mp, failed) :=
    if negb (getSeqFiled denParm =? 0) then
      let '(v, l, err) :=
        checkAndUpdateVerList (verSeq mp) (multiVersionList mp) (getSeqFiled denParm) in
      (set_versions v l mp, err)
    else (mp, false) in
  if failed then (mp, NewDentryResponse OpNotExistErr)
  else
    (* item, denFound, doMore, clean after the lookup *)
    let '(dt, item, denFound, doMore, clean) :=
      if checkInode then
        match tree_Get denParm (dentryTree mp) with
        | None => (dentryTree mp, None, None, true, false)
        | Some den =>
            if negb (den_Inode den =? den_Inode denParm) then
              (dentryTree mp, None, None, true, false)
            else if verSeq mp =? 0 then
              let (t, it) := tree_Delete den (dentryTree mp) in
              (t, it, Some den, true, false)
            else
              let '(den', found, more, cl) :=
                deleteVerSnapshot den (getSeqFiled denParm) (verSeq mp)
                                  (multiVersionList mp) in
              (tree_store den' (dentryTree mp), Some den', found, more, cl)
        end
      else if verSeq mp =? 0 then
        let (t, it) := BTree_Delete denParm (dentryTree mp) in
        (t, it, it, true, false)
      else
        match BTree_Get denParm (dentryTree mp) with
        | Some it =>
            let '(den', found, more, cl) :=
              deleteVerSnapshot it (getSeqFiled denParm) (verSeq mp)
                                (multiVersionList mp) in
            (tree_store den' (dentryTree mp), Some den', found, more, cl)
        | None => (dentryTree mp, None, None, true, false)
        end in
    let dt :=
      match item with
      | Some it =>
          if clean || ((getSnapListLen it =? 0) && isDeleted it)
          then fst (BTree_Delete it dt) else dt
      | None => dt
      end in
    let mp := set_dentryTree dt mp in
    if negb doMore then
      (mp, mkDentryResponse OpOk
             (match denFound with Some f => Some f | None => Some emptyDentry end))
    else
      match denFound with
      | None => (mp, NewDentryResponse OpNotExistErr)
      | Some f =>
          let mp :=
            match BTree_CopyGet (NewInode (den_ParentId denParm) 0) (inodeTree mp) with
            | Some ino =>
                if negb (ShouldDelete ino) then
                  let ino := if getSeqFiled denParm =? 0 then DecNLink ino else ino in
                  store_inode (SetMtime now ino) mp
                else mp
            | None => mp
            end in
          (mp, mkDentryResponse OpOk (Some f))
      end.

Definition getDentryByVerSeq (dy : Dentry) (verSeq : Z) : option Dentry :=
  getDentryFromVerList dy verSeq.

(** The visitor of readDirLimit, on the children gathered so far. *)
Definition readDirLimit_visit (req : ReadDirLimitReq) (i : Dentry)
           (children : list proto_Dentry) : list proto_Dentry * bool :=
  let skip :=
    if negb (IsDir (den_Type i)) && (0 <? rdl_VerOpt req) then
      if 0 <? Z.land (rdl_VerOpt req) (FlagsVerDelDir mod 2 ^ 8) then true
      else if negb (isEffective i (rdl_VerSeq req)) then true
      else false
    else false in
  if skip then (children, true)
  else
    match getDentryByVerSeq i (rdl_VerSeq req) with
    | None => (children, true)
    | Some d =>
        let children := children ++ [mkProtoDentry (den_Name d) (den_Inode d) (den_Type d)] in
        if (0 <? rdl_Limit req) && (rdl_Limit req <=? Z.of_nat (List.length children))
        then (children, false)
        else (children, true)
    end.

Definition readDirLimit (mp : metaPartition) (req : ReadDirLimitReq) : list proto_Dentry :=
  let startDentry :=
    mkDentry (rdl_ParentID req)
             (if (0 <? String.length (rdl_Marker req))%nat then rdl_Marker req
              else EmptyString) 0 0 0 [] in
  let endDentry := mkDentry (wrap64 (rdl_ParentID req + 1)) EmptyString 0 0 0 [] in
  BTree_AscendRange startDentry endDentry (readDirLimit_visit req) (dentryTree mp) [].

(** What the visitor of readDirLimit adds for a dentry: the dentry as it
    reads at the requested sequence, unless the version option of the
    request filters it out or no layer of it is readable there. *)
Definition readDirLimit_child (req : ReadDirLimitReq) (i : Dentry) : option proto_Dentry :=
  if negb (IsDir (den_Type i)) && (0 <? rdl_VerOpt req)
     && ((0 <? Z.land (rdl_VerOpt req) (FlagsVerDelDir mod 2 ^ 8))
         || negb (isEffective i (rdl_VerSeq req)))
  then None
  else
    match getDentryByVerSeq i (rdl_VerSeq req) with
    | Some d => Some (mkProtoDentry (den_Name d) (den_Inode d) (den_Type d))
    | None => None
    end.

Definition effective_children (req : ReadDirLimitReq) (l : list Dentry)
  : list proto_Dentry :=
  flat_map (fun i => match readDirLimit_child req i with
                     | Some c => [c]
                     | None => []
                     end) l.

(** *** Inode handlers *)



Definition internalDeleteInode (mp : metaPartition) (ino : Inode) : metaPartition :=
  let mp := set_inodeTree (fst (BTree_Delete ino (inodeTree mp))) mp in
  let mp := set_freeList (freeList_Remove (ino_Inode ino) (freeList mp)) mp in
  set_extendTree (fst (BTree_Delete (mkExtend (ino_Inode ino) []) (extendTree mp))) mp.

(** The loop of internalDelete over the buffer: eight bytes an inode id;
    an empty rest is io.EOF (no error), a shorter one is returned as the
    read error. *)
Fixpoint internalDelete_loop (mp : metaPartition) (buf : list Byte.byte)
  : metaPartition * option error :=
  match buf with
  | [] => (mp, None)
  | b0 :: b1 :: b2 :: b3 :: b4 :: b5 :: b6 :: b7 :: rest =>
      internalDelete_loop
        (internalDeleteInode mp (NewInode (be64 [b0; b1; b2; b3; b4; b5; b6; b7]) 0)) rest
  | _ => (mp, Some ErrUnexpectedEOF)
  end.

Definition internalDelete (mp : metaPartition) (val : list Byte.byte)
  : metaPartition * option error :=
  if (List.length val =? 0)%nat then (mp, None) else internalDelete_loop mp val.

Definition fsmAppendExtentsWithCheck (mp : metaPartition) (ino : Inode) (isSplit : bool)
  : metaPartition * Status :=
  match BTree_CopyGet ino (inodeTree mp) with
  | None => (mp, OpNotExistErr)
  | Some ino2 =>
      if ShouldDelete ino2 then (mp, OpNotExistErr)
      else
        let oldSize := int64 (ino_Size ino2) in
        match ino_Extents ino with
        | [] => (mp, OpOk)
        | ek0 :: discardExtentKey =>
            let (um, status) :=
              addUidSpace (uidManager mp) (ino_Uid ino2) (ino_Inode ino2) [ek0] in
            let mp := set_uidManager um mp in
            if negb (Status_eqb status OpOk) then (mp, status)
            else
              let '(mp, ino2, ek0, status) :=
                if negb isSplit then
                  let '(ino2, delExtents, status) :=
                    AppendExtentWithCheck ino2 (verSeq mp) (multiVersionList mp) (getVer ino)
                                          ek0 (ino_ModifyTime ino) discardExtentKey
                                          (volType mp) in
                  let '(mp, ino2) :=
                    if Status_eqb status OpOk then
                      let (ino2, delExtents) := DecSplitExts ino2 delExtents in
                      (send_extDelCh delExtents mp, ino2)
                    else (mp, ino2) in
                  (* conflict need delete eks[0], to clear garbage data *)
                  if Status_eqb status OpConflictExtentsErr then
                    let ek0 :=
                      if negb (IsTinyExtent (ek_ExtentId ek0))
                         && (ExtentSize <=? ek_ExtentOffset ek0)
                      then ek_SetSplit true ek0 else ek0 in
                    (send_extDelCh [ek0] mp, ino2, ek0, status)
                  else (mp, ino2, ek0, status)
                else
                  let '(ino2, delExtents, status) :=
                    SplitExtentWithCheck ino2 (verSeq mp) (multiVersionList mp) (getVer ino)
                                         ek0 (ino_ModifyTime ino) (volType mp) in
                  let (ino2, delExtents) := DecSplitExts ino2 delExtents in
                  let mp := send_extDelCh delExtents mp in
                  (set_uidManager
                     (minusUidSpace (uidManager mp) (ino_Uid ino2) (ino_Inode ino2) delExtents)
                     mp, ino2, ek0, status) in
              (* conflict need delete eks[0], to clear garbage data *)
              let mp :=
                if Status_eqb status OpConflictExtentsErr then
                  let mp := send_extDelCh [ek0] mp in
                  set_uidManager
                    (minusUidSpace (uidManager mp) (ino_Uid ino2) (ino_Inode ino2) [ek0]) mp
                else mp in
              let mp := mp_updateUsedInfo (int64 (int64 (ino_Size ino2) - oldSize)) 0
                                          (ino_Inode ino2) mp in
              (store_inode ino2 mp, status)
        end
  end.

(** [None] is the panic of the handler. *)
Definition fsmExtentsTruncate (mp : metaPartition) (ino : Inode)
  : option (metaPartition * InodeResponse) :=
  match BTree_Get ino (inodeTree mp) with
  | None => Some (mp, NewInodeResponse OpNotExistErr)
  | Some i =>
      if ShouldDelete i then Some (mp, NewInodeResponse OpNotExistErr)
      else if IsDir (ino_Type i) then Some (mp, NewInodeResponse OpArgMismatchErr)
      else
        let i := if negb (getVer i =? verSeq mp) then CreateVer (verSeq mp) i else i in
        let (i, failed) := CreateLowerVersion i (getVer i) (multiVersionList mp) in
        if failed then Some (store_inode i mp, NewInodeResponse OpOk)
        else
          let oldSize := int64 (ino_Size i) in
          let '(i, delExtents, lastKey) :=
            ExtentsTruncate i (ino_Size ino) (ino_ModifyTime ino) in
          (* doOnLastKey *)
          let mp :=
            match lastKey with
            | Some k =>
                set_uidManager
                  (minusUidSpace (uidManager mp) (ino_Uid i) (ino_Inode i) [k]) mp
            | None => mp
            end in
          if (List.length delExtents =? 0)%nat then
            Some (store_inode i mp, NewInodeResponse OpOk)
          else
            let '(i, delExtents, failed) :=
              RestoreExts2NextLayer i delExtents (verSeq mp) 0 in
            if failed then None
            else
              let mp := mp_updateUsedInfo (int64 (int64 (ino_Size i) - oldSize)) 0
                                          (ino_Inode i) mp in
              let (i, delExtents) := DecSplitExts i delExtents in
              let mp := send_extDelCh delExtents mp in
              let mp :=
                set_uidManager
                  (minusUidSpace (uidManager mp) (ino_Uid i) (ino_Inode i) delExtents) mp in
              Some (store_inode i mp, NewInodeResponse OpOk)
  end.



(** The error of fsmSetAttr is never set. *)
Definition fsmSetAttr (mp : metaPartition) (req : SetattrRequest)
  : metaPartition * option error :=
  let ino := NewInode (sa_Inode req) (sa_Mode req) in
  match BTree_CopyGet ino (inodeTree mp) with
  | None => (mp, None)
  | Some ino =>
      if ShouldDelete ino then (mp, None)
      else (store_inode (SetAttr ino req) mp, None)
  end.

(** ** Facts about the ordered index *)

Section TreeFacts.
Context {A : Type} `{BtreeItem A}.

Lemma sameKey_refl (x : A) : sameKey x x = true.
Proof. unfold sameKey. now rewrite Less_irrefl. Qed.

Lemma sameKey_sym (x y : A) : sameKey x y = sameKey y x.
Proof. unfold sameKey. apply andb_comm. Qed.

Lemma sameKey_trans (x y z : A) :
  sameKey x y = true -> sameKey y z = true -> sameKey x z = true.
Proof.
  unfold sameKey. rewrite !andb_true_iff, !negb_true_iff.
  intros [Hxy Hyx] [Hyz Hzy]. split.
  - destruct (Less x z) eqn:E; [ | reflexivity ].
    destruct (Less_cotrans x y z E); congruence.
  - destruct (Less z x) eqn:E; [ | reflexivity ].
    destruct (Less_cotrans z y x E); congruence.
Qed.

Lemma sameKey_Less_l (x y z : A) :
  sameKey x y = true -> Less x z = Less y z.
Proof.
  unfold sameKey. rewrite andb_true_iff, !negb_true_iff. intros [Hxy Hyx].
  destruct (Less x z) eqn:E1, (Less y z) eqn:E2; try reflexivity.
  - destruct (Less_cotrans x y z E1); congruence.
  - destruct (Less_cotrans y x z E2); congruence.
Qed.

Lemma sameKey_Less_r (x y z : A) :
  sameKey x y = true -> Less z x = Less z y.
Proof.
  unfold sameKey. rewrite andb_true_iff, !negb_true_iff. intros [Hxy Hyx].
  destruct (Less z x) eqn:E1, (Less z y) eqn:E2; try reflexivity.
  - destruct (Less_cotrans z y x E1); congruence.
  - destruct (Less_cotrans z x y E2); congruence.
Qed.

Lemma sameKey_cong_r (x y z : A) :
  sameKey y z = true -> sameKey x y = sameKey x z.
Proof.
  intro E. unfold sameKey.
  now rewrite (sameKey_Less_r _ _ x E), (sameKey_Less_l _ _ x E).
Qed.

Lemma tree_Get_sameKey (key x : A) (t : tree) :
  tree_Get key t = Some x -> sameKey x key = true.
Proof. intro E. now apply find_some in E. Qed.

Lemma tree_Get_In (key x : A) (t : tree) :
  tree_Get key t = Some x -> In x t.
Proof. intro E. now apply find_some in E. Qed.

Lemma tree_Get_None (key : A) (t : tree) :
  tree_Get key t = None <-> forall x, In x t -> sameKey x key = false.
Proof.
  split.
  - intros E x Hx. exact (find_none _ _ E x Hx).
  - induction t as [ | y r IH ]; intro E; [ reflexivity | ].
    unfold tree_Get in *. simpl. rewrite (E y (or_introl eq_refl)).
    apply IH. intros x Hx. apply E. now right.
Qed.

Lemma tree_Get_key (k k' : A) (t : tree) :
  sameKey k k' = true -> tree_Get k t = tree_Get k' t.
Proof.
  intro E. unfold tree_Get.
  induction t as [ | y r IH ]; simpl; [ reflexivity | ].
  now rewrite (sameKey_cong_r y _ _ E), IH.
Qed.

Lemma tree_drop_none (key : A) (t : tree) :
  tree_Get key t = None -> tree_drop key t = t.
Proof.
  induction t as [ | y r IH ]; [ reflexivity | ].
  unfold tree_Get, tree_drop in *. simpl.
  destruct (sameKey y key); simpl; [ discriminate | ].
  intro E. now rewrite IH.
Qed.

Lemma tree_Get_drop (key : A) (t : tree) :
  tree_Get key (tree_drop key t) = None.
Proof.
  apply tree_Get_None. intros x Hx.
  apply filter_In in Hx. now apply negb_true_iff.
Qed.

Lemma tree_Get_drop_other (key k : A) (t : tree) :
  sameKey k key = false -> tree_Get k (tree_drop key t) = tree_Get k t.
Proof.
  intro Hk. induction t as [ | y r IH ]; [ reflexivity | ].
  unfold tree_Get, tree_drop in *. simpl.
  destruct (sameKey y key) eqn:E1; simpl.
  - destruct (sameKey y k) eqn:E2; [ | exact IH ].
    rewrite sameKey_sym in E2.
    now rewrite (sameKey_trans _ _ _ E2 E1) in Hk.
  - now rewrite IH.
Qed.

Lemma tree_Get_put (item : A) (t : tree) :
  tree_Get item t = None -> tree_Get item (tree_put item t) = Some item.
Proof.
  induction t as [ | y r IH ]; unfold tree_Get in *; simpl.
  - now rewrite sameKey_refl.
  - destruct (sameKey y item) eqn:E; [ discriminate | ].
    intro Hn. destruct (Less item y); simpl.
    + now rewrite sameKey_refl.
    + rewrite E. now apply IH.
Qed.

Lemma tree_Get_put_other (item k : A) (t : tree) :
  sameKey k item = false -> tree_Get k (tree_put item t) = tree_Get k t.
Proof.
  intro Hk. rewrite sameKey_sym in Hk.
  induction t as [ | y r IH ]; unfold tree_Get in *; simpl.
  - now rewrite Hk.
  - destruct (Less item y); simpl.
    + now rewrite Hk.
    + now rewrite IH.
Qed.

Lemma tree_drop_put (item : A) (t : tree) :
  tree_Get item t = None -> tree_drop item (tree_put item t) = t.
Proof.
  induction t as [ | y r IH ]; unfold tree_Get, tree_drop in *; simpl.
  - now rewrite sameKey_refl.
  - destruct (sameKey y item) eqn:E; [ discriminate | ].
    intro Hn. destruct (Less item y); simpl.
    + rewrite sameKey_refl, E. simpl. f_equal.
      now apply (tree_drop_none item r).
    + rewrite E. simpl. f_equal. now apply IH.
Qed.

Lemma tree_store_same (item x : A) (t : tree) :
  tree_Get item t = Some x -> tree_Get item (tree_store item t) = Some item.
Proof.
  induction t as [ | y r IH ]; unfold tree_Get, tree_store in *; simpl;
    [ discriminate | ].
  destruct (sameKey y item) eqn:E.
  - intros _. now rewrite sameKey_refl.
  - rewrite E. exact IH.
Qed.

Lemma tree_store_other (item k : A) (t : tree) :
  sameKey k item = false -> tree_Get k (tree_store item t) = tree_Get k t.
Proof.
  intro Hk. induction t as [ | y r IH ]; [ reflexivity | ].
  unfold tree_Get, tree_store in *. simpl.
  destruct (sameKey y item) eqn:E.
  - rewrite (sameKey_sym item k), Hk.
    rewrite (sameKey_sym y k), (sameKey_cong_r k _ _ E), Hk. exact IH.
  - destruct (sameKey y k); [ reflexivity | exact IH ].
Qed.

Lemma tree_store_absent (item : A) (t : tree) :
  tree_Get item t = None -> tree_store item t = t.
Proof.
  induction t as [ | y r IH ]; [ reflexivity | ].
  unfold tree_Get, tree_store in *. simpl.
  destruct (sameKey y item); [ discriminate | ].
  intro E. now rewrite IH.
Qed.

(** The tree operations keep the items ascending. *)

Lemma tree_wf_drop (key : A) (t : tree) : tree_wf t -> tree_wf (tree_drop key t).
Proof.
  unfold tree_wf, tree_drop. induction 1 as [ | y r Hr IH Hy ]; simpl.
  - constructor.
  - destruct (negb (sameKey y key)); [ | exact IH ].
    constructor; [ exact IH | ].
    rewrite Forall_forall in *. intros x Hx.
    apply filter_In in Hx. now apply Hy.
Qed.

Lemma tree_put_In (item x : A) (t : tree) :
  In x (tree_put item t) -> x = item \/ In x t.
Proof.
  induction t as [ | y r IH ]; simpl.
  - intros [E | []]. now left.
  - destruct (Less item y); simpl.
    + intros [E | [E | Hx]]; auto.
    + intros [E | Hx]; auto. destruct (IH Hx); auto.
Qed.

Lemma tree_wf_put (item : A) (t : tree) :
  tree_wf t -> tree_Get item t = None -> tree_wf (tree_put item t).
Proof.
  unfold tree_wf. induction 1 as [ | y r Hr IH Hy ]; simpl; intro Hn.
  - repeat constructor.
  - unfold tree_Get in Hn. simpl in Hn.
    destruct (sameKey y item) eqn:E; [ discriminate | ].
    destruct (Less item y) eqn:L.
    + constructor; [ now constructor | ].
      constructor; [ exact L | ].
      rewrite Forall_forall in *. intros x Hx.
      apply (Less_trans _ _ _ L). now apply Hy.
    + constructor; [ now apply IH | ].
      rewrite Forall_forall in *. intros x Hx.
      destruct (tree_put_In _ _ _ Hx) as [-> | Hx']; [ | now apply Hy ].
      unfold sameKey in E. rewrite L in E. simpl in E.
      rewrite andb_true_r in E. now apply negb_false_iff in E.
Qed.

Lemma tree_wf_ReplaceOrInsert (item : A) (t : tree) :
  tree_wf t -> tree_wf (fst (tree_ReplaceOrInsert item t)).
Proof.
  intro W. simpl. apply tree_wf_put.
  - now apply tree_wf_drop.
  - apply tree_Get_drop.
Qed.

Lemma tree_wf_store (item : A) (t : tree) : tree_wf t -> tree_wf (tree_store item t).
Proof.
  unfold tree_wf, tree_store. induction 1 as [ | y r Hr IH Hy ]; simpl.
  - constructor.
  - constructor; [ exact IH | ].
    rewrite Forall_forall in *. intros x Hx.
    apply in_map_iff in Hx. destruct Hx as [z [Ez Hz]].
    specialize (Hy z Hz).
    destruct (sameKey y item) eqn:E1, (sameKey z item) eqn:E2; subst x.
    + rewrite sameKey_sym in E1.
      pose proof (sameKey_trans _ _ _ E2 E1) as E3.
      rewrite (sameKey_Less_r _ _ y E3), Less_irrefl in Hy. discriminate.
    + now rewrite <- (sameKey_Less_l _ _ z E1).
    + now rewrite <- (sameKey_Less_r _ _ y E2).
    + exact Hy.
Qed.

End TreeFacts.

Lemma Inode_sameKey (i j : Inode) : sameKey i j = (ino_Inode i =? ino_Inode j).
Proof.
  unfold sameKey. simpl. unfold Inode_Less.
  destruct (Z.ltb_spec (ino_Inode i) (ino_Inode j)),
           (Z.ltb_spec (ino_Inode j) (ino_Inode i)),
           (Z.eqb_spec (ino_Inode i) (ino_Inode j)); simpl; try reflexivity; lia.
Qed.

Lemma Extend_sameKey (e f : Extend) : sameKey e f = (ext_inode e =? ext_inode f).
Proof.
  unfold sameKey. simpl. unfold Extend_Less.
  destruct (Z.ltb_spec (ext_inode e) (ext_inode f)),
           (Z.ltb_spec (ext_inode f) (ext_inode e)),
           (Z.eqb_spec (ext_inode e) (ext_inode f)); simpl; try reflexivity; lia.
Qed.

Lemma Dentry_sameKey (d e : Dentry) :
  sameKey d e = (den_ParentId d =? den_ParentId e) && String.eqb (den_Name d) (den_Name e).
Proof.
  unfold sameKey. simpl. unfold Dentry_Less.
  destruct (Z.ltb_spec (den_ParentId d) (den_ParentId e)),
           (Z.ltb_spec (den_ParentId e) (den_ParentId d)),
           (Z.eqb_spec (den_ParentId d) (den_ParentId e)),
           (Z.eqb_spec (den_ParentId e) (den_ParentId d)); simpl;
    try reflexivity; try lia.
  destruct (String.eqb_spec (den_Name d) (den_Name e)) as [E | N].
  - now rewrite E, string_ltb_irrefl.
  - destruct (String.ltb (den_Name d) (den_Name e)) eqn:L1; [ reflexivity | ].
    destruct (String.ltb (den_Name e) (den_Name d)) eqn:L2; [ reflexivity | ].
    elim N. now apply string_ltb_total.
Qed.


(** ** The index wrapper *)

Section BTreeFacts.
Context {A : Type} `{BtreeItem A}.

Lemma BTree_ReplaceOrInsert_false_item (key : A) (b : BTree) (t : BTree) (item : option A) :
  BTree_ReplaceOrInsert key false b = (t, item, false) -> item <> None /\ t = b.
Proof.
  unfold BTree_ReplaceOrInsert.
  destruct (tree_Get key b) eqn:E; simpl; intro X; inversion X; subst.
  split; [ discriminate | reflexivity ].
Qed.

(** C6. ReplaceOrInsert with replace = false: when the key is present the
    existing item comes back with ok = false and the index is unchanged
    (Create then answers existsError); when the key is absent the item is
    inserted, ok = true, a lookup of the key finds the item, every other
    key reads as before, and the index stays ascending. *)
Theorem ReplaceOrInsert_no_replace (key : A) (b : BTree) :
  match BTree_Get key b with
  | Some existing =>
      BTree_ReplaceOrInsert key false b = (b, Some existing, false)
      /\ BTree_Create key false b = (b, Some existsError)
  | None =>
      exists b' : BTree,
        BTree_ReplaceOrInsert key false b = (b', None, true)
        /\ BTree_Create key false b = (b', None)
        /\ BTree_Get key b' = Some key
        /\ (forall k, sameKey k key = false -> BTree_Get k b' = BTree_Get k b)
        /\ (tree_wf b -> tree_wf b')
  end.
Proof.
  unfold BTree_Create, BTree_ReplaceOrInsert, BTree_Get.
  destruct (tree_Get key b) as [existing | ] eqn:E.
  - now split.
  - exists (tree_put key b). unfold tree_ReplaceOrInsert.
    rewrite (tree_drop_none _ _ E), E.
    repeat split.
    + now apply tree_Get_put.
    + intros k Hk. now apply tree_Get_put_other.
    + intro W. now apply tree_wf_put.
Qed.

End BTreeFacts.

(** ** The handlers *)

Lemma set_dentryTree_same (mp : metaPartition) : set_dentryTree (dentryTree mp) mp = mp.
Proof. now destruct mp. Qed.

Lemma set_inodeTree_same (mp : metaPartition) : set_inodeTree (inodeTree mp) mp = mp.
Proof. now destruct mp. Qed.

Lemma set_txRbDentryTree_same (mp : metaPartition) :
  set_txRbDentryTree (txRbDentryTree mp) mp = mp.
Proof. now destruct mp. Qed.

Lemma set_txRbDentryTree_twice (l l' : list TxRollbackDentry) (mp : metaPartition) :
  set_txRbDentryTree l (set_txRbDentryTree l' mp) = set_txRbDentryTree l mp.
Proof. reflexivity. Qed.

(** C9. setAttr on an inode that is absent from the inode index, or that
    is marked deleted, returns a nil error and leaves the partition as it
    was. *)
Theorem fsmSetAttr_absent_or_deleted (mp : metaPartition) (req : SetattrRequest) :
  match BTree_CopyGet (NewInode (sa_Inode req) (sa_Mode req)) (inodeTree mp) with
  | None => fsmSetAttr mp req = (mp, None)
  | Some ino =>
      if ShouldDelete ino then fsmSetAttr mp req = (mp, None)
      else fsmSetAttr mp req = (store_inode (SetAttr ino req) mp, None)
  end.
Proof.
  unfold fsmSetAttr.
  destruct (BTree_CopyGet _ _) as [ino | ]; [ | reflexivity ].
  now destruct (ShouldDelete ino).
Qed.

(** C7. Truncate of an inode that exists, is not delete-marked and is a
    directory returns ArgMismatch without a panic, and the whole partition
    (the inode with its size, mtime and extents, the reclaim channel, the
    quota managers) is what it was. *)
Theorem fsmExtentsTruncate_directory (mp : metaPartition) (ino i : Inode) :
  BTree_Get ino (inodeTree mp) = Some i ->
  ShouldDelete i = false ->
  IsDir (ino_Type i) = true ->
  fsmExtentsTruncate mp ino = Some (mp, mkInodeResponse OpArgMismatchErr None).
Proof.
  intros Hget Hdel Hdir. unfold fsmExtentsTruncate.
  now rewrite Hget, Hdel, Hdir.
Qed.

Lemma freeList_Remove_In (i j : Z) (fl : list Z) :
  In j (freeList_Remove i fl) <-> In j fl /\ j <> i.
Proof.
  unfold freeList_Remove. rewrite filter_In, negb_true_iff, Z.eqb_neq. tauto.
Qed.

(** C10. internalDelete of inode id i removes i from the inode index and
    from the free-list and deletes the extend entry of i; the entries of
    the inode and extend indexes under other ids read as before, the
    dentry index is untouched and the other ids of the free-list stay.
    On the wire the command is the big-endian bytes of the id. *)
Theorem internalDeleteInode_effect (mp : metaPartition) (ino : Inode) :
  let mp' := internalDeleteInode mp ino in
  let i := ino_Inode ino in
  (forall k : Inode, ino_Inode k = i -> BTree_Get k (inodeTree mp') = None)
  /\ ~ In i (freeList mp')
  /\ (forall e : Extend, ext_inode e = i -> BTree_Get e (extendTree mp') = None)
  /\ (forall k : Inode, ino_Inode k <> i ->
        BTree_Get k (inodeTree mp') = BTree_Get k (inodeTree mp))
  /\ (forall e : Extend, ext_inode e <> i ->
        BTree_Get e (extendTree mp') = BTree_Get e (extendTree mp))
  /\ dentryTree mp' = dentryTree mp
  /\ (forall j, j <> i -> (In j (freeList mp') <-> In j (freeList mp)))
  /\ (forall b0 b1 b2 b3 b4 b5 b6 b7,
        be64 [b0; b1; b2; b3; b4; b5; b6; b7] = i ->
        internalDelete mp [b0; b1; b2; b3; b4; b5; b6; b7]
        = (internalDeleteInode mp (NewInode i 0), None)).
Proof.
  simpl. unfold BTree_Get, BTree_Delete, tree_Delete. simpl.
  repeat split.
  - intros k Hk.
    assert (S : sameKey k ino = true) by (rewrite Inode_sameKey; now apply Z.eqb_eq).
    rewrite (tree_Get_key _ _ _ S). apply tree_Get_drop.
  - rewrite freeList_Remove_In. tauto.
  - intros e He.
    assert (S : sameKey e (mkExtend (ino_Inode ino) []) = true)
      by (rewrite Extend_sameKey; now apply Z.eqb_eq).
    rewrite (tree_Get_key _ _ _ S). apply tree_Get_drop.
  - intros k Hk. apply tree_Get_drop_other.
    rewrite Inode_sameKey. now apply Z.eqb_neq.
  - intros e He. apply tree_Get_drop_other.
    rewrite Extend_sameKey. now apply Z.eqb_neq.
  - rewrite freeList_Remove_In. tauto.
  - rewrite freeList_Remove_In. tauto.
  - intros b0 b1 b2 b3 b4 b5 b6 b7 E. unfold internalDelete. simpl.
    now rewrite <- E.
Qed.

Lemma Dentry_Get_key (dentry d : Dentry) (t : @BTree Dentry) :
  BTree_Get dentry t = Some d ->
  den_ParentId d = den_ParentId dentry /\ den_Name d = den_Name dentry.
Proof.
  intro E. apply tree_Get_sameKey in E. rewrite Dentry_sameKey in E.
  apply andb_true_iff in E. destruct E as [E1 E2].
  apply Z.eqb_eq in E1. now apply String.eqb_eq in E2.
Qed.

Lemma IncNLink_NLink (v : Z) (i : Inode) :
  ino_NLink (IncNLink v i) = wrap32 (ino_NLink i + 1).
Proof. unfold IncNLink. now destruct (getVer i <? v). Qed.

Lemma IncNLink_Inode (v : Z) (i : Inode) : ino_Inode (IncNLink v i) = ino_Inode i.
Proof. unfold IncNLink. now destruct (getVer i <? v). Qed.

Lemma store_inode_Get (mp : metaPartition) (key p p' : Inode) :
  BTree_Get key (inodeTree mp) = Some p ->
  ino_Inode p' = ino_Inode p ->
  BTree_Get key (inodeTree (store_inode p' mp)) = Some p'.
Proof.
  intros Hget Hid. simpl. unfold BTree_Get in *.
  assert (S : sameKey key p' = true).
  { apply tree_Get_sameKey in Hget. rewrite Inode_sameKey in *.
    rewrite Z.eqb_eq in *. congruence. }
  rewrite (tree_Get_key _ _ _ S). apply tree_store_same with (x := p).
  now rewrite <- (tree_Get_key _ _ _ S).
Qed.

Lemma store_inode_Get_other (mp : metaPartition) (k p' : Inode) :
  ino_Inode k <> ino_Inode p' ->
  BTree_Get k (inodeTree (store_inode p' mp)) = BTree_Get k (inodeTree mp).
Proof.
  intro N. simpl. apply tree_store_other.
  rewrite Inode_sameKey. now apply Z.eqb_neq.
Qed.

(** C1 (amended). createDentry, not forced.  A parent that is absent or
    marked deleted gives NotExist, a parent that is not a directory gives
    ArgMismatch, both with the partition unchanged.  With no dentry at
    (parent, name) the dentry is inserted, the other dentries read as
    before, and the parent's nlink is incremented and its mtime set to
    now.  With a live dentry at (parent, name): a different high-level
    type gives ArgMismatch; the same high-level type and the same child
    inode give Ok with the partition unchanged, whatever the other bits
    of the type; the same high-level type and another child inode give
    Exists.  A tombstoned dentry is resurrected with Ok. *)
Theorem fsmCreateDentry_outcomes (mp : metaPartition) (dentry : Dentry) :
  match BTree_CopyGet (NewInode (den_ParentId dentry) 0) (inodeTree mp) with
  | None => fsmCreateDentry mp dentry false = (mp, OpNotExistErr)
  | Some parIno =>
      if ShouldDelete parIno then fsmCreateDentry mp dentry false = (mp, OpNotExistErr)
      else if negb (IsDir (ino_Type parIno)) then
        fsmCreateDentry mp dentry false = (mp, OpArgMismatchErr)
      else
        match BTree_Get dentry (dentryTree mp) with
        | None =>
            exists mp' p',
              fsmCreateDentry mp dentry false = (mp', OpOk)
              /\ BTree_Get dentry (dentryTree mp') = Some dentry
              /\ (forall k, sameKey k dentry = false ->
                    BTree_Get k (dentryTree mp') = BTree_Get k (dentryTree mp))
              /\ BTree_Get (NewInode (den_ParentId dentry) 0) (inodeTree mp') = Some p'
              /\ ino_NLink p' = wrap32 (ino_NLink parIno + 1)
              /\ ino_ModifyTime p' = now
              /\ (forall k : Inode, ino_Inode k <> den_ParentId dentry ->
                    BTree_Get k (inodeTree mp') = BTree_Get k (inodeTree mp))
        | Some d =>
            if isDeleted d then snd (fsmCreateDentry mp dentry false) = OpOk
            else if negb (OsModeType (den_Type dentry) =? OsModeType (den_Type d)) then
              fsmCreateDentry mp dentry false = (mp, OpArgMismatchErr)
            else if den_Inode dentry =? den_Inode d then
              fsmCreateDentry mp dentry false = (mp, OpOk)
            else fsmCreateDentry mp dentry false = (mp, OpExistErr)
        end
  end.
Proof.
  unfold fsmCreateDentry. simpl negb.
  destruct (BTree_CopyGet _ (inodeTree mp)) as [parIno | ] eqn:Hpar; [ | reflexivity ].
  destruct (ShouldDelete parIno); [ reflexivity | ].
  destruct (IsDir (ino_Type parIno)); simpl; [ | reflexivity ].
  unfold BTree_ReplaceOrInsert, BTree_Get.
  destruct (tree_Get dentry (dentryTree mp)) as [d | ] eqn:Hd.
  - destruct (Dentry_Get_key _ _ _ Hd) as [Ep En].
    destruct (isDeleted d); [ reflexivity | ].
    destruct (OsModeType (den_Type dentry) =? OsModeType (den_Type d)); simpl;
      [ | reflexivity ].
    rewrite Ep, En, Z.eqb_refl, String.eqb_refl. simpl.
    now destruct (den_Inode dentry =? den_Inode d).
  - unfold tree_ReplaceOrInsert. rewrite (tree_drop_none _ _ Hd).
    assert (Hid : ino_Inode parIno = den_ParentId dentry).
    { apply tree_Get_sameKey in Hpar. rewrite Inode_sameKey in Hpar.
      now apply Z.eqb_eq in Hpar. }
    eexists. exists (SetMtime now (IncNLink (verSeq mp) parIno)).
    split; [ reflexivity | ]. simpl.
    split; [ now apply tree_Get_put | ].
    split; [ intros k Hk; now apply tree_Get_put_other | ].
    split.
    { apply (store_inode_Get mp _ parIno); [ exact Hpar | ].
      simpl. apply IncNLink_Inode. }
    split; [ apply IncNLink_NLink | ].
    split; [ reflexivity | ].
    intros k Hk. apply tree_store_other. rewrite Inode_sameKey. apply Z.eqb_neq.
    change (ino_Inode k <> ino_Inode (IncNLink (verSeq mp) parIno)).
    rewrite IncNLink_Inode. congruence.
Qed.

Lemma rbDentry_is_own (rb : TxRollbackDentry) :
  rbDentry_is (tdi_ParentId (rb_txDentryInfo rb)) (tdi_Name (rb_txDentryInfo rb))
              (tdi_TxID (rb_txDentryInfo rb)) rb = true.
Proof. unfold rbDentry_is. now rewrite Z.eqb_refl, !String.eqb_refl. Qed.

Lemma ledger_delete_absent (pid : Z) (name txID : string) (l : list TxRollbackDentry) :
  existsb (rbDentry_is pid name txID) l = false -> ledger_delete pid name txID l = l.
Proof.
  unfold ledger_delete. induction l as [ | r l IH ]; simpl; [ reflexivity | ].
  destruct (rbDentry_is pid name txID r); simpl; [ discriminate | ].
  intro E. now rewrite IH.
Qed.

(** A record that was appended to the ledger is the one the deferred
    cleanup removes: the ledger is then what it was before the insert. *)
Lemma ledger_delete_add (d : Dentry) (i : TxDentryInfo) (t : TxRbType)
      (l : list TxRollbackDentry) :
  existsb (rbDentry_is (tdi_ParentId i) (tdi_Name i) (tdi_TxID i)) l = false ->
  ledger_delete (tdi_ParentId i) (tdi_Name i) (tdi_TxID i)
                (l ++ [NewTxRollbackDentry d i t]) = l.
Proof.
  intro E. unfold ledger_delete. rewrite filter_app.
  pose proof (rbDentry_is_own (NewTxRollbackDentry d i t)) as Own.
  simpl in Own. simpl. rewrite Own. simpl. rewrite app_nil_r.
  now apply ledger_delete_absent.
Qed.

(** A createDentry that does not answer Ok has changed nothing. *)
Lemma fsmCreateDentry_failure (mp : metaPartition) (dentry : Dentry) (forceUpdate : bool) :
  snd (fsmCreateDentry mp dentry forceUpdate) <> OpOk ->
  fst (fsmCreateDentry mp dentry forceUpdate) = mp.
Proof.
  unfold fsmCreateDentry.
  destruct (negb forceUpdate).
  - destruct (BTree_CopyGet _ (inodeTree mp)) as [parIno | ]; [ | reflexivity ].
    destruct (ShouldDelete parIno); [ reflexivity | ].
    destruct (negb (IsDir (ino_Type parIno))); [ reflexivity | ].
    destruct (BTree_ReplaceOrInsert dentry false (dentryTree mp)) as [[t [d | ]] [ | ]];
      simpl; try congruence.
    destruct (isDeleted d); simpl; [ congruence | ].
    destruct (negb _); [ reflexivity | ].
    now destruct (_ && _).
  - destruct (BTree_ReplaceOrInsert dentry false (dentryTree mp)) as [[t [d | ]] [ | ]];
      simpl; try congruence.
    destruct (isDeleted d); simpl; [ congruence | ].
    destruct (negb _); [ reflexivity | ].
    now destruct (_ && _).
Qed.


Section TxPrepare.
Variables (mp : metaPartition) (txDentry : TxDentry) (i : TxDentryInfo).
Let txId := tx_TxID (txd_TxInfo txDentry).
Let dentry := txd_Dentry txDentry.
Hypothesis Hdone : txInRMDone mp txId = false.
Hypothesis Hinfo :
  TxDentryInfos_get (den_ParentId dentry, den_Name dentry)
                    (tx_TxDentryInfos (txd_TxInfo txDentry)) = Some i.

Lemma fsmTxCreateDentry_replay :
  existsb (rbDentry_is (tdi_ParentId i) (tdi_Name i) (tdi_TxID i)) (txRbDentryTree mp) = true ->
  fsmTxCreateDentry mp txDentry = (mp, OpOk).
Proof.
  intro Hp. unfold fsmTxCreateDentry, addTxRollbackDentry, ledger_add.
  fold txId dentry. rewrite Hdone, Hinfo. simpl rb_txDentryInfo. rewrite Hp.
  simpl. now rewrite set_txRbDentryTree_same.
Qed.

Lemma fsmTxDeleteDentry_replay :
  existsb (rbDentry_is (tdi_ParentId i) (tdi_Name i) (tdi_TxID i)) (txRbDentryTree mp) = true ->
  fsmTxDeleteDentry mp txDentry = (mp, NewDentryResponse OpOk).
Proof.
  intro Hp. unfold fsmTxDeleteDentry, addTxRollbackDentry, ledger_add.
  fold txId dentry. rewrite Hdone, Hinfo. simpl rb_txDentryInfo. rewrite Hp.
  simpl. now rewrite set_txRbDentryTree_same.
Qed.

Hypothesis Habsent :
  existsb (rbDentry_is (tdi_ParentId i) (tdi_Name i) (tdi_TxID i)) (txRbDentryTree mp) = false.

Lemma rollback_undone (t : TxRbType) :
  deleteTxRollbackDentry
    (set_txRbDentryTree (txRbDentryTree mp ++ [NewTxRollbackDentry dentry i t]) mp)
    (tdi_ParentId i) (tdi_Name i) (tdi_TxID i) = mp.
Proof.
  unfold deleteTxRollbackDentry. simpl txRbDentryTree.
  rewrite (ledger_delete_add dentry i t _ Habsent).
  rewrite set_txRbDentryTree_twice. apply set_txRbDentryTree_same.
Qed.

Lemma fsmTxCreateDentry_forward :
  fsmTxCreateDentry mp txDentry =
  let r := fsmCreateDentry
             (set_txRbDentryTree
                (txRbDentryTree mp ++ [NewTxRollbackDentry dentry i TxDelete]) mp)
             dentry false in
  if Status_eqb (snd r) OpOk then r else (mp, snd r).
Proof.
  unfold fsmTxCreateDentry, addTxRollbackDentry, ledger_add.
  fold txId dentry. rewrite Hdone, Hinfo. simpl rb_txDentryInfo. rewrite Habsent.
  cbn [Status_eqb negb]. cbv zeta.
  pose proof (fsmCreateDentry_failure
                (set_txRbDentryTree
                   (txRbDentryTree mp ++ [NewTxRollbackDentry dentry i TxDelete]) mp)
                dentry false) as Hfail.
  destruct (fsmCreateDentry _ dentry false) as [mp2 status]. simpl in *.
  destruct (Status_eqb status OpOk) eqn:Es; simpl; [ reflexivity | ].
  apply Status_eqb_neq in Es. rewrite (Hfail Es). now rewrite rollback_undone.
Qed.

Lemma fsmTxDeleteDentry_forward :
  fsmTxDeleteDentry mp txDentry =
  match BTree_Get dentry (dentryTree mp) with
  | Some item =>
      if den_Inode item =? den_Inode dentry then
        (set_dentryTree (fst (BTree_Delete dentry (dentryTree mp)))
           (set_txRbDentryTree
              (txRbDentryTree mp ++ [NewTxRollbackDentry dentry i TxAdd]) mp),
         mkDentryResponse OpOk (Some item))
      else (mp, NewDentryResponse OpNotExistErr)
  | None => (mp, NewDentryResponse OpNotExistErr)
  end.
Proof.
  unfold fsmTxDeleteDentry, addTxRollbackDentry, ledger_add.
  fold txId dentry. rewrite Hdone, Hinfo. simpl rb_txDentryInfo. rewrite Habsent.
  cbn [Status_eqb negb]. cbv zeta. simpl dentryTree.
  destruct (BTree_Get dentry (dentryTree mp)) as [item | ].
  - destruct (den_Inode item =? den_Inode dentry); simpl; [ reflexivity | ].
    now rewrite rollback_undone.
  - simpl. now rewrite rollback_undone.
Qed.

End TxPrepare.
(** C2. The transactional prepare handlers of createDentry and
    deleteDentry.  (a) A transaction id the idempotency table records as
    settled gives TxInfoNotExist with the partition unchanged.  (b) When a
    rollback record of the same (entity, txId) is already in the ledger
    the handler answers Ok and the partition is unchanged: the forward
    mutation is not applied again.  (c) When the record is inserted and
    the forward mutation then answers a status other than Ok, the handler
    answers that status and the deferred step has removed the record: the
    partition, ledger included, is what it was.  In all cases an answer
    other than Ok leaves no trace. *)
Theorem tx_prepare_dentry (mp : metaPartition) (txDentry : TxDentry) :
  let txId := tx_TxID (txd_TxInfo txDentry) in
  let dentry := txd_Dentry txDentry in
  let info := TxDentryInfos_get (den_ParentId dentry, den_Name dentry)
                                (tx_TxDentryInfos (txd_TxInfo txDentry)) in
  let present (i : TxDentryInfo) :=
    existsb (rbDentry_is (tdi_ParentId i) (tdi_Name i) (tdi_TxID i)) (txRbDentryTree mp) in
  (txInRMDone mp txId = true ->
     fsmTxCreateDentry mp txDentry = (mp, OpTxInfoNotExistErr)
     /\ fsmTxDeleteDentry mp txDentry = (mp, NewDentryResponse OpTxInfoNotExistErr))
  /\ (forall i, txInRMDone mp txId = false -> info = Some i -> present i = true ->
        fsmTxCreateDentry mp txDentry = (mp, OpOk)
        /\ fsmTxDeleteDentry mp txDentry = (mp, NewDentryResponse OpOk))
  /\ (forall i st, txInRMDone mp txId = false -> info = Some i -> present i = false ->
        snd (fsmCreateDentry
               (set_txRbDentryTree
                  (txRbDentryTree mp ++ [NewTxRollbackDentry dentry i TxDelete]) mp)
               dentry false) = st ->
        st <> OpOk ->
        fsmTxCreateDentry mp txDentry = (mp, st))
  /\ (forall i, txInRMDone mp txId = false -> info = Some i -> present i = false ->
        (BTree_Get dentry (dentryTree mp) = None
         \/ exists item, BTree_Get dentry (dentryTree mp) = Some item
                         /\ den_Inode item <> den_Inode dentry) ->
        fsmTxDeleteDentry mp txDentry = (mp, NewDentryResponse OpNotExistErr))
  /\ (snd (fsmTxCreateDentry mp txDentry) <> OpOk ->
        fst (fsmTxCreateDentry mp txDentry) = mp)
  /\ (dr_Status (snd (fsmTxDeleteDentry mp txDentry)) <> OpOk ->
        fst (fsmTxDeleteDentry mp txDentry) = mp).

Proof.
  cbv zeta. repeat split.
  - unfold fsmTxCreateDentry. now rewrite H.
  - unfold fsmTxDeleteDentry. now rewrite H.
  - now apply fsmTxCreateDentry_replay with (i := i).
  - now apply fsmTxDeleteDentry_replay with (i := i).
  - intros i st Hdone Hinfo Habsent Est Hne.
    rewrite (fsmTxCreateDentry_forward mp txDentry i Hdone Hinfo Habsent).
    cbv zeta. rewrite Est.
    destruct (Status_eqb st OpOk) eqn:Es; [ | reflexivity ].
    apply Status_eqb_eq in Es. contradiction.
  - intros i Hdone Hinfo Habsent Hmiss.
    rewrite (fsmTxDeleteDentry_forward mp txDentry i Hdone Hinfo Habsent).
    destruct Hmiss as [Hn | [item [Hs Hi]]].
    + now rewrite Hn.
    + rewrite Hs. apply Z.eqb_neq in Hi. now rewrite Hi.
  - destruct (txInRMDone mp (tx_TxID (txd_TxInfo txDentry))) eqn:Hdone.
    { unfold fsmTxCreateDentry. now rewrite Hdone. }
    destruct (TxDentryInfos_get (den_ParentId (txd_Dentry txDentry),
                                 den_Name (txd_Dentry txDentry))
                                (tx_TxDentryInfos (txd_TxInfo txDentry)))
      as [i | ] eqn:Hinfo.
    2: { unfold fsmTxCreateDentry. now rewrite Hdone, Hinfo. }
    destruct (existsb (rbDentry_is (tdi_ParentId i) (tdi_Name i) (tdi_TxID i))
                      (txRbDentryTree mp)) eqn:Hp.
    + now rewrite (fsmTxCreateDentry_replay mp txDentry i Hdone Hinfo Hp).
    + rewrite (fsmTxCreateDentry_forward mp txDentry i Hdone Hinfo Hp). cbv zeta.
      destruct (Status_eqb _ OpOk) eqn:Es; [ | reflexivity ].
      apply Status_eqb_eq in Es. intro Hne. contradiction.
  - destruct (txInRMDone mp (tx_TxID (txd_TxInfo txDentry))) eqn:Hdone.
    { unfold fsmTxDeleteDentry. now rewrite Hdone. }
    destruct (TxDentryInfos_get (den_ParentId (txd_Dentry txDentry),
                                 den_Name (txd_Dentry txDentry))
                                (tx_TxDentryInfos (txd_TxInfo txDentry)))
      as [i | ] eqn:Hinfo.
    2: { unfold fsmTxDeleteDentry. now rewrite Hdone, Hinfo. }
    destruct (existsb (rbDentry_is (tdi_ParentId i) (tdi_Name i) (tdi_TxID i))
                      (txRbDentryTree mp)) eqn:Hp.
    + now rewrite (fsmTxDeleteDentry_replay mp txDentry i Hdone Hinfo Hp).
    + rewrite (fsmTxDeleteDentry_forward mp txDentry i Hdone Hinfo Hp).
      destruct (BTree_Get _ (dentryTree mp)) as [item | ]; [ | reflexivity ].
      destruct (den_Inode item =? _); [ | reflexivity ].
      simpl. congruence.
Qed.

Lemma DecNLink_Inode (i : Inode) : ino_Inode (DecNLink i) = ino_Inode i.
Proof. unfold DecNLink. now destruct (0 <? ino_NLink i). Qed.

Lemma DecNLink_NLink (i : Inode) :
  0 < ino_NLink i -> ino_NLink (DecNLink i) = ino_NLink i - 1.
Proof.
  intro P. unfold DecNLink. apply Z.ltb_lt in P. now rewrite P.
Qed.

Lemma tree_drop_twice_Dentry (k : Dentry) (t : @BTree Dentry) :
  tree_drop k (tree_drop k t) = tree_drop k t.
Proof. apply tree_drop_none, tree_Get_drop. Qed.

(** C4 (amended). deleteDentry with seq = 0 and the expected child given.
    When no dentry is at (parent, name), or its child is not the expected
    one, the answer is NotExist and the partition is unchanged.  When the
    child matches and the partition has no snapshots (verSeq = 0) the
    answer is Ok with the removed dentry as message, the key is gone from
    the dentry index and the other dentries read as before; the parent
    inode, when it is in the inode index and not marked deleted, has its
    nlink decremented and its mtime set to now, and the inode index is
    otherwise untouched (a missing or delete-marked parent is left as it
    is). *)
Theorem fsmDeleteDentry_checked (mp : metaPartition) (denParm : Dentry) :
  getSeqFiled denParm = 0 ->
  match BTree_Get denParm (dentryTree mp) with
  | None => fsmDeleteDentry mp denParm true = (mp, NewDentryResponse OpNotExistErr)
  | Some den =>
      if negb (den_Inode den =? den_Inode denParm) then
        fsmDeleteDentry mp denParm true = (mp, NewDentryResponse OpNotExistErr)
      else
        verSeq mp = 0 ->
        exists mp',
          fsmDeleteDentry mp denParm true = (mp', mkDentryResponse OpOk (Some den))
          /\ BTree_Get denParm (dentryTree mp') = None
          /\ (forall k, sameKey k denParm = false ->
                BTree_Get k (dentryTree mp') = BTree_Get k (dentryTree mp))
          /\ match BTree_Get (NewInode (den_ParentId denParm) 0) (inodeTree mp) with
             | None => inodeTree mp' = inodeTree mp
             | Some p =>
                 if ShouldDelete p then inodeTree mp' = inodeTree mp
                 else
                   BTree_Get (NewInode (den_ParentId denParm) 0) (inodeTree mp')
                   = Some (SetMtime now (DecNLink p))
                   /\ ino_ModifyTime (SetMtime now (DecNLink p)) = now
                   /\ (0 < ino_NLink p ->
                       ino_NLink (SetMtime now (DecNLink p)) = ino_NLink p - 1)
                   /\ (forall k : Inode, ino_Inode k <> den_ParentId denParm ->
                         BTree_Get k (inodeTree mp') = BTree_Get k (inodeTree mp))
             end
  end.
Proof.
  intro Hseq. unfold fsmDeleteDentry. rewrite Hseq. simpl negb. cbv iota.
  unfold BTree_Get.
  destruct (tree_Get denParm (dentryTree mp)) as [den | ] eqn:Hden.
  - destruct (negb (den_Inode den =? den_Inode denParm)) eqn:Hino.
    + simpl. now rewrite set_dentryTree_same.
    + intro Hver. rewrite Hver. simpl Z.eqb. cbv iota.
      assert (Hk : sameKey den denParm = true) by (now apply tree_Get_sameKey in Hden).
      assert (Hsame : tree_drop den (dentryTree mp) = tree_drop denParm (dentryTree mp)).
      { unfold tree_drop. apply filter_ext. intro x.
        now rewrite (sameKey_cong_r x _ _ Hk). }
      unfold tree_Delete, BTree_Delete, tree_Delete.
      rewrite (tree_Get_key _ _ (dentryTree mp) Hk), Hden. simpl fst.
      rewrite Hsame.
      assert (Hdd : tree_drop den (tree_drop denParm (dentryTree mp))
                    = tree_drop denParm (dentryTree mp)).
      { rewrite <- Hsame. apply tree_drop_twice_Dentry. }
      rewrite Hdd.
      destruct (false || (getSnapListLen den =? 0) && isDeleted den).
      all: simpl negb; cbv iota.
      all: unfold BTree_CopyGet; simpl inodeTree.
      all: destruct (tree_Get (NewInode (den_ParentId denParm) 0) (inodeTree mp))
        as [p | ] eqn:Hp; [ destruct (ShouldDelete p) | ]; simpl negb; cbv iota.
      all: eexists; (split; [ reflexivity | ]).
      all: split; [ simpl; apply tree_Get_drop | ].
      all: split; [ intros k Hkk; simpl; now apply tree_Get_drop_other | ].
      all: try reflexivity.
      all: assert (Hid : ino_Inode p = den_ParentId denParm)
        by (apply tree_Get_sameKey in Hp; rewrite Inode_sameKey in Hp;
            now apply Z.eqb_eq in Hp).
      all: split;
        [ apply (store_inode_Get (set_dentryTree (tree_drop denParm (dentryTree mp)) mp)
                                 _ p); [ exact Hp | simpl; apply DecNLink_Inode ] | ].
      all: split; [ reflexivity | ].
      all: split; [ intro P; simpl; now apply DecNLink_NLink | ].
      all: intros k Hkk; simpl; apply tree_store_other; rewrite Inode_sameKey;
        apply Z.eqb_neq;
        change (ino_Inode k <> ino_Inode (DecNLink p)); rewrite DecNLink_Inode;
        congruence.
  - simpl. now rewrite set_dentryTree_same.
Qed.

(** The batch handlers.  Neither evict nor unlink touches the ledger of
    inodes in transactions, so the test inodeInTx answers the same for an
    inode throughout a batch. *)










(** Paging through a directory. *)

Lemma readDirLimit_visit_child (req : ReadDirLimitReq) (i : Dentry)
      (children : list proto_Dentry) :
  readDirLimit_visit req i children =
  match readDirLimit_child req i with
  | None => (children, true)
  | Some c =>
      (children ++ [c],
       negb ((0 <? rdl_Limit req)
             && (rdl_Limit req <=? Z.of_nat (List.length (children ++ [c])))))
  end.
Proof.
  unfold readDirLimit_visit, readDirLimit_child.
  destruct (negb (IsDir (den_Type i))), (0 <? rdl_VerOpt req),
           (0 <? Z.land (rdl_VerOpt req) (FlagsVerDelDir mod 2 ^ 8)),
           (isEffective i (rdl_VerSeq req)); cbn [andb orb negb];
    try reflexivity;
    (destruct (getDentryByVerSeq i (rdl_VerSeq req)); [ | reflexivity ]);
    now destruct (_ && _).
Qed.

Lemma readDirLimit_child_name (req : ReadDirLimitReq) (i : Dentry) (c : proto_Dentry) :
  readDirLimit_child req i = Some c -> pd_Name c = den_Name i.
Proof.
  unfold readDirLimit_child, getDentryByVerSeq, getDentryFromVerList.
  destruct (_ && _ && _); [ discriminate | ].
  destruct ((rdl_VerSeq req =? 0) || (getVerSeq i <=? rdl_VerSeq req)).
  - destruct (isDeleted i); [ discriminate | ]. now intros [= <-].
  - destruct (find _ (den_dentryList i)) as [l | ]; [ | discriminate ].
    destruct (Z.testbit (ds_VerSeq l) 63); [ discriminate | ]. now intros [= <-].
Qed.

Lemma ascend_no_limit (req : ReadDirLimitReq) (l : list Dentry) :
  (0 <? rdl_Limit req) = false ->
  forall children,
    ascend (readDirLimit_visit req) l children = children ++ effective_children req l.
Proof.
  intro Hl. induction l as [ | i r IH ]; intro children; simpl.
  - now rewrite app_nil_r.
  - rewrite readDirLimit_visit_child.
    destruct (readDirLimit_child req i) as [c | ]; simpl.
    + rewrite Hl. simpl. rewrite IH. now rewrite <- app_assoc.
    + apply IH.
Qed.

Lemma ascend_limit (req : ReadDirLimitReq) (l : list Dentry) :
  forall children,
    Z.of_nat (List.length children) < rdl_Limit req ->
    ascend (readDirLimit_visit req) l children
    = children
      ++ firstn (Z.to_nat (rdl_Limit req) - List.length children)
                (effective_children req l).
Proof.
  induction l as [ | i r IH ]; intros children Hlen; simpl.
  - now rewrite firstn_nil, app_nil_r.
  - rewrite readDirLimit_visit_child.
    destruct (readDirLimit_child req i) as [c | ]; simpl; [ | now apply IH ].
    assert (Hpos : (0 <? rdl_Limit req) = true) by (apply Z.ltb_lt; lia).
    rewrite Hpos. simpl. rewrite length_app. simpl.
    destruct (Z.to_nat (rdl_Limit req) - List.length children)%nat as [ | n ] eqn:En;
      [ lia | ].
    simpl.
    destruct (Z.leb_spec (rdl_Limit req) (Z.of_nat (List.length children + 1))) as [L | L];
      simpl.
    + assert (n = 0%nat) by lia. subst n. now rewrite firstn_O.
    + rewrite IH by (rewrite length_app; simpl; lia).
      rewrite length_app. simpl. rewrite <- app_assoc. simpl.
      do 3 f_equal. lia.
Qed.

Lemma start_name (m : string) :
  (if (0 <? String.length m)%nat then m else EmptyString) = m.
Proof. now destruct m. Qed.

Lemma readDirLimit_range (pid : Z) (marker : string) (t : @BTree Dentry) :
  0 <= pid < 2 ^ 64 - 1 ->
  tree_range (mkDentry pid marker 0 0 0 []) (mkDentry (wrap64 (pid + 1)) EmptyString 0 0 0 []) t
  = filter (fun d => (den_ParentId d =? pid) && negb (String.ltb (den_Name d) marker)) t.
Proof.
  intro Hpid. unfold tree_range. apply filter_ext. intro x.
  simpl. unfold Dentry_Less, wrap64. simpl.
  rewrite Z.mod_small by lia. rewrite string_ltb_empty, andb_false_r, orb_false_r.
  destruct (Z.ltb_spec (den_ParentId x) pid), (Z.eqb_spec (den_ParentId x) pid),
           (Z.ltb_spec (den_ParentId x) (pid + 1)); simpl; try reflexivity; try lia.
  now rewrite andb_true_r.
Qed.

Lemma firstn_In {X : Type} (n : nat) (l : list X) (x : X) :
  In x (firstn n l) -> In x l.
Proof.
  intro Hx. rewrite <- (firstn_skipn n l). apply in_or_app. now left.
Qed.

Lemma StronglySorted_firstn {X : Type} (R : X -> X -> Prop) (n : nat) :
  forall l, StronglySorted R l -> StronglySorted R (firstn n l).
Proof.
  induction n as [ | n IH ]; intros l Hs; simpl; [ constructor | ].
  destruct l as [ | x r ]; [ constructor | ].
  inversion Hs as [ | ? ? Hr Hx ]; subst.
  constructor; [ now apply IH | ].
  rewrite Forall_forall in *. intros y Hy. apply Hx.
  now apply (firstn_In n r).
Qed.

Lemma effective_children_In (req : ReadDirLimitReq) (l : list Dentry) (c : proto_Dentry) :
  In c (effective_children req l) ->
  exists i, In i l /\ readDirLimit_child req i = Some c.
Proof.
  unfold effective_children. rewrite in_flat_map. intros [i [Hi Hc]].
  exists i. split; [ exact Hi | ].
  destruct (readDirLimit_child req i) as [c' | ]; simpl in Hc; [ | contradiction ].
  destruct Hc as [-> | []]. reflexivity.
Qed.

Lemma effective_children_sorted (req : ReadDirLimitReq) (pid : Z) (l : list Dentry) :
  Forall (fun d => den_ParentId d = pid) l ->
  StronglySorted (fun x y => Less x y = true) l ->
  StronglySorted (fun a b => String.ltb (pd_Name a) (pd_Name b) = true)
                 (effective_children req l).
Proof.
  intros Hpid Hs. induction Hs as [ | i r Hr IH Hi ]; simpl; [ constructor | ].
  inversion Hpid as [ | ? ? Hi0 Hr0 ]; subst.
  specialize (IH Hr0).
  destruct (readDirLimit_child req i) as [c | ] eqn:Hc; simpl; [ | exact IH ].
  constructor; [ exact IH | ].
  rewrite Forall_forall in *. intros c' Hc'.
  destruct (effective_children_In _ _ _ Hc') as [i' [Hi' Hci']].
  rewrite (readDirLimit_child_name _ _ _ Hc), (readDirLimit_child_name _ _ _ Hci').
  specialize (Hi i' Hi'). simpl in Hi. apply Dentry_Less_spec in Hi.
  specialize (Hr0 i' Hi').
  destruct Hi as [Hlt | [_ Hn]]; [ lia | exact Hn ].
Qed.

(** C3 (amended). readDirLimit (parentId, marker, limit, seq), for a
    parent id below the largest 64-bit value.  The children returned are
    the dentries of parentId whose names are at or after the marker (a
    dentry named as the marker is among them) and that read at seq, each
    as it reads there, in the order of the index; with limit = 0 all of
    them, with limit > 0 the first limit of them.  On an index in key
    order the names come strictly ascending. *)
Theorem readDirLimit_page (mp : metaPartition) (req : ReadDirLimitReq) :
  0 <= rdl_ParentID req < MaxUint64 ->
  let inDir :=
    filter (fun d => (den_ParentId d =? rdl_ParentID req)
                     && negb (String.ltb (den_Name d) (rdl_Marker req)))
           (dentryTree mp) in
  let all := effective_children req inDir in
  readDirLimit mp req
  = (if 0 <? rdl_Limit req then firstn (Z.to_nat (rdl_Limit req)) all else all)
  /\ Forall (fun c => String.ltb (pd_Name c) (rdl_Marker req) = false) (readDirLimit mp req)
  /\ (0 < rdl_Limit req -> Z.of_nat (List.length (readDirLimit mp req)) <= rdl_Limit req)
  /\ (tree_wf (dentryTree mp) ->
      StronglySorted (fun a b => String.ltb (pd_Name a) (pd_Name b) = true)
                     (readDirLimit mp req)).
Proof.
  intro Hpid. cbv zeta.
  set (inDir := filter _ (dentryTree mp)).
  assert (E : readDirLimit mp req
              = if 0 <? rdl_Limit req
                then firstn (Z.to_nat (rdl_Limit req)) (effective_children req inDir)
                else effective_children req inDir).
  { unfold readDirLimit, BTree_AscendRange. rewrite start_name.
    rewrite readDirLimit_range by exact Hpid. fold inDir.
    destruct (0 <? rdl_Limit req) eqn:Hl.
    - apply Z.ltb_lt in Hl. rewrite ascend_limit by (simpl; lia).
      simpl. now rewrite Nat.sub_0_r.
    - now rewrite ascend_no_limit. }
  assert (Hin : forall c, In c (readDirLimit mp req) -> In c (effective_children req inDir)).
  { intros c. rewrite E. destruct (0 <? rdl_Limit req); [ | easy ]. apply firstn_In. }
  split; [ exact E | ].
  split.
  { apply Forall_forall. intros c Hc.
    destruct (effective_children_In _ _ _ (Hin c Hc)) as [i [Hi Hci]].
    rewrite (readDirLimit_child_name _ _ _ Hci).
    subst inDir. apply filter_In in Hi. destruct Hi as [_ Hi].
    apply andb_true_iff in Hi. destruct Hi as [_ Hi]. now apply negb_true_iff in Hi. }
  split.
  { intro Hl. rewrite E. apply Z.ltb_lt in Hl. rewrite Hl.
    pose proof (firstn_le_length (Z.to_nat (rdl_Limit req)) (effective_children req inDir)).
    lia. }
  intro W.
  assert (S : StronglySorted (fun a b => String.ltb (pd_Name a) (pd_Name b) = true)
                             (effective_children req inDir)).
  { apply effective_children_sorted with (pid := rdl_ParentID req).
    - apply Forall_forall. intros d Hd. subst inDir. apply filter_In in Hd.
      destruct Hd as [_ Hd]. apply andb_true_iff in Hd. destruct Hd as [Hd _].
      now apply Z.eqb_eq.
    - subst inDir. unfold tree_wf in W. clear -W.
      induction W as [ | y r Hr IH Hy ]; simpl; [ constructor | ].
      destruct (_ && _); [ | exact IH ].
      constructor; [ exact IH | ].
      rewrite Forall_forall in *. intros x Hx. apply filter_In in Hx. now apply Hy. }
  rewrite E. destruct (0 <? rdl_Limit req); [ | exact S ].
  now apply StronglySorted_firstn.
Qed.

(** C5. A checked append (not split) that AppendExtentWithCheck rejects
    with ConflictExtents: the handler answers ConflictExtents, and the
    rejected key is sent to the reclaim channel by the block inside the
    branch and again by the block after it, two events where the
    specification has one. *)
Theorem fsmAppendExtentsWithCheck_conflict
        (mp : metaPartition) (ino ino2 ino2' : Inode) (ek0 : ExtentKey)
        (discard delExtents : list ExtentKey) (um : UidManager) :
  BTree_CopyGet ino (inodeTree mp) = Some ino2 ->
  ShouldDelete ino2 = false ->
  ino_Extents ino = ek0 :: discard ->
  addUidSpace (uidManager mp) (ino_Uid ino2) (ino_Inode ino2) [ek0] = (um, OpOk) ->
  AppendExtentWithCheck ino2 (verSeq mp) (multiVersionList mp) (getVer ino) ek0
                        (ino_ModifyTime ino) discard (volType mp)
  = (ino2', delExtents, OpConflictExtentsErr) ->
  let ek := if negb (IsTinyExtent (ek_ExtentId ek0)) && (ExtentSize <=? ek_ExtentOffset ek0)
            then ek_SetSplit true ek0 else ek0 in
  snd (fsmAppendExtentsWithCheck mp ino false) = OpConflictExtentsErr
  /\ extDelCh (fst (fsmAppendExtentsWithCheck mp ino false)) = extDelCh mp ++ [[ek]; [ek]].
Proof.
  intros Hget Hdel Heks Hadd Happ. cbv zeta.
  unfold fsmAppendExtentsWithCheck.
  rewrite Hget, Hdel, Heks, Hadd. cbn [Status_eqb negb].
  cbn [verSeq multiVersionList volType set_uidManager].
  rewrite Happ. cbn [Status_eqb].
  split; [ reflexivity | ].
  simpl. now rewrite <- app_assoc.
Qed.

(** The split path of the same handler sends the rejected key once: the
    block after the branch is the only one that runs there. *)
Lemma fsmAppendExtentsWithCheck_split_conflict
      (mp : metaPartition) (ino ino2 ino2' ino2'' : Inode) (ek0 : ExtentKey)
      (discard delExtents delExtents' : list ExtentKey) (um : UidManager) :
  BTree_CopyGet ino (inodeTree mp) = Some ino2 ->
  ShouldDelete ino2 = false ->
  ino_Extents ino = ek0 :: discard ->
  addUidSpace (uidManager mp) (ino_Uid ino2) (ino_Inode ino2) [ek0] = (um, OpOk) ->
  SplitExtentWithCheck ino2 (verSeq mp) (multiVersionList mp) (getVer ino) ek0
                       (ino_ModifyTime ino) (volType mp)
  = (ino2', delExtents, OpConflictExtentsErr) ->
  DecSplitExts ino2' delExtents = (ino2'', delExtents') ->
  snd (fsmAppendExtentsWithCheck mp ino true) = OpConflictExtentsErr
  /\ extDelCh (fst (fsmAppendExtentsWithCheck mp ino true))
     = extDelCh mp ++ [delExtents'; [ek0]].
Proof.
  intros Hget Hdel Heks Hadd Hsplit Hdec.
  unfold fsmAppendExtentsWithCheck.
  rewrite Hget, Hdel, Heks, Hadd. cbn [Status_eqb negb].
  cbn [verSeq multiVersionList volType set_uidManager].
  rewrite Hsplit, Hdec. cbn [Status_eqb].
  split; [ reflexivity | ].
  simpl. now rewrite <- app_assoc.
Qed.

(** createDentry keeps both indexes in key order. *)
Lemma fsmCreateDentry_wf (mp : metaPartition) (dentry : Dentry) (forceUpdate : bool) :
  tree_wf (dentryTree mp) -> tree_wf (inodeTree mp) ->
  tree_wf (dentryTree (fst (fsmCreateDentry mp dentry forceUpdate)))
  /\ tree_wf (inodeTree (fst (fsmCreateDentry mp dentry forceUpdate))).
Proof.
  intros Wd Wi. unfold fsmCreateDentry.
  assert (Hput : tree_wf (tree_put dentry (tree_drop dentry (dentryTree mp))))
    by exact (tree_wf_ReplaceOrInsert dentry (dentryTree mp) Wd).
  unfold BTree_ReplaceOrInsert, tree_ReplaceOrInsert.
  destruct (negb forceUpdate).
  - destruct (BTree_CopyGet _ (inodeTree mp)) as [parIno | ]; [ | now split ].
    destruct (ShouldDelete parIno); [ now split | ].
    destruct (negb (IsDir (ino_Type parIno))); [ now split | ].
    destruct (tree_Get dentry (dentryTree mp)) as [d | ].
    + destruct (isDeleted d); simpl.
      * split; now apply tree_wf_store.
      * destruct (negb _); [ now split | ]. now destruct (_ && _).
    + simpl. split; [ exact Hput | now apply tree_wf_store ].
  - destruct (tree_Get dentry (dentryTree mp)) as [d | ].
    + destruct (isDeleted d); simpl.
      * split; [ now apply tree_wf_store | exact Wi ].
      * destruct (negb _); [ now split | ]. now destruct (_ && _).
    + simpl. split; [ exact Hput | exact Wi ].
Qed.

End Partition.

(** ** Scenarios

    Concrete partitions on which the statements above are exercised.  The
    managers carry no state here and the parameters that the exercised
    paths never call are the trivial ones. *)

Definition noManagers : Type := unit.

Definition dirMode : Z := 2 ^ 31 + 493.
Definition fileMode : Z := 420.

Definition dirInode (id nlink : Z) (deleted : bool) : Inode :=
  mkInode id dirMode 0 0 0 0 nlink deleted [] 0 [].

Definition fileInode (id nlink : Z) (exts : list ExtentKey) : Inode :=
  mkInode id fileMode 0 0 0 0 nlink false exts 0 [].

Definition liveDentry (pid : Z) (name : string) (child type : Z) : Dentry :=
  mkDentry pid name child type 0 [].

Definition no_deleteVerSnapshot (d : Dentry) (_ _ : Z) (_ : list (Z * Z))
  : Dentry * option Dentry * bool * bool := (d, None, true, false).

Definition no_checkAndUpdateVerList (v : Z) (l : list (Z * Z)) (_ : Z)
  : Z * list (Z * Z) * bool := (v, l, false).

Definition no_isEffective (_ : Dentry) (_ : Z) : bool := true.

(** Directory 100 holding "a" -> 101 (a file with mode 0644) and
    "b" -> 102. *)
Definition partitionAB : @metaPartition noManagers noManagers noManagers :=
  mkMetaPartition
    [dirInode 100 4 false; fileInode 101 1 []; fileInode 102 1 []]
    [liveDentry 100 "a" 101 fileMode; liveDentry 100 "b" 102 fileMode]
    [] [] 0 [] 0 [] tt tt tt [] [] [].

(** The same with the directory marked deleted. *)
Definition partitionDeletedParent : @metaPartition noManagers noManagers noManagers :=
  mkMetaPartition
    [dirInode 100 2 true; fileInode 101 1 []]
    [liveDentry 100 "a" 101 fileMode]
    [] [] 0 [] 0 [] tt tt tt [] [] [].

(** The commands of the scenarios. *)
Definition createA0600 : Dentry := liveDentry 100 "a" 101 384.
Definition readFromA : ReadDirLimitReq := mkReadDirLimitReq 100 "a" 0 0 0.
Definition deleteA : Dentry := liveDentry 100 "a" 101 fileMode.
Definition deleteAUnderDeletedParent
  : @metaPartition noManagers noManagers noManagers * DentryResponse :=
  fsmDeleteDentry 7 no_deleteVerSnapshot no_checkAndUpdateVerList
                  partitionDeletedParent deleteA true.

(** C1, counterexample.  The claim sends every live dentry that is not
    the same in parent, name, child and type, and has the same high-level
    type, to Exists.  Directory 100 holds "a" -> 101 with type 0644; the
    command creates "a" -> 101 with type 0600: the handler answers Ok. *)
Lemma fsmCreateDentry_same_child_other_mode :
  ~ (forall d,
        BTree_Get createA0600 (dentryTree partitionAB) = Some d ->
        isDeleted d = false ->
        ~ (den_ParentId d = den_ParentId createA0600
           /\ den_Name d = den_Name createA0600
           /\ den_Inode d = den_Inode createA0600
           /\ den_Type d = den_Type createA0600) ->
        OsModeType (den_Type d) = OsModeType (den_Type createA0600) ->
        snd (fsmCreateDentry 7 partitionAB createA0600 false) = OpExistErr).
Proof.
  intros H.
  specialize (H (liveDentry 100 "a" 101 fileMode) eq_refl eq_refl).
  assert (E : snd (fsmCreateDentry 7 partitionAB createA0600 false) = OpOk) by reflexivity.
  rewrite E in H. 
  assert (X : OpOk = OpExistErr).
  { apply H.
    - intros (_ & _ & _ & T). vm_compute in T. discriminate.
    - reflexivity. }
  discriminate.
Qed.

(** C3, counterexample.  "Strictly after the marker": with "a" and "b" in
    directory 100 and the marker "a", the answer starts with "a". *)
Lemma readDirLimit_marker_included :
  readDirLimit 0 no_isEffective partitionAB readFromA
  = [mkProtoDentry "a" 101 fileMode; mkProtoDentry "b" 102 fileMode]
  /\ ~ Forall (fun c => String.ltb (rdl_Marker readFromA) (pd_Name c) = true)
              (readDirLimit 0 no_isEffective partitionAB readFromA).
Proof.
  split; [ reflexivity | ].
  intro F. change (readDirLimit 0 no_isEffective partitionAB readFromA)
    with [mkProtoDentry "a" 101 fileMode; mkProtoDentry "b" 102 fileMode] in F.
  inversion F as [ | ? ? Ha _ ]. vm_compute in Ha. discriminate.
Qed.

(** C4, counterexample.  The parent's nlink is not decremented when the
    parent is marked deleted: "a" is removed from directory 100, whose
    nlink stays 2. *)
Lemma fsmDeleteDentry_deleted_parent :
  dr_Status (snd deleteAUnderDeletedParent) = OpOk
  /\ BTree_Get deleteA (dentryTree (fst deleteAUnderDeletedParent)) = None
  /\ ~ (forall p p',
          BTree_Get (NewInode 100 0) (inodeTree partitionDeletedParent) = Some p ->
          BTree_Get (NewInode 100 0) (inodeTree (fst deleteAUnderDeletedParent)) = Some p' ->
          ino_NLink p' = ino_NLink p - 1).
Proof.
  split; [ reflexivity | ]. split; [ reflexivity | ].
  intro H. specialize (H (dirInode 100 2 true) (dirInode 100 2 true) eq_refl eq_refl).
  vm_compute in H. discriminate.
Qed.

(** *** The parameters of the inode scenarios *)

Definition no_addUidSpace (u : noManagers) (_ _ : Z) (_ : list ExtentKey)
  : noManagers * Status := (u, OpOk).
Definition no_minusUidSpace (u : noManagers) (_ _ : Z) (_ : list ExtentKey)
  : noManagers := u.
Definition no_updateUsedInfo (_ : @BTree Extend) (q : noManagers) (_ _ _ : Z)
  : noManagers := q.
Definition no_DecSplitExts (i : Inode) (l : list ExtentKey) : Inode * list ExtentKey :=
  (i, l).
Definition no_CreateLowerVersion (i : Inode) (_ : Z) (_ : list (Z * Z)) : Inode * bool :=
  (i, false).
Definition no_ExtentsTruncate (i : Inode) (_ _ : Z)
  : Inode * list ExtentKey * option ExtentKey := (i, [], None).
Definition no_RestoreExts2NextLayer (i : Inode) (l : list ExtentKey) (_ _ : Z)
  : Inode * list ExtentKey * bool := (i, l, false).
Definition no_SplitExtentWithCheck (i : Inode) (_ : Z) (_ : list (Z * Z)) (_ : Z)
           (_ : ExtentKey) (_ _ : Z) : Inode * list ExtentKey * Status := (i, [], OpOk).

(** Modelled from the spec: the conflict test of AppendExtentWithCheck,
    "if any existing extent overlaps [fileOffset, fileOffset+length) with
    a different extent key => ConflictExtents".  A key that conflicts with
    nothing is put at the end of the list; the splice is not modelled. *)
Definition ek_overlap (a b : ExtentKey) : bool :=
  (ek_FileOffset a <? ek_FileOffset b + ek_Size b)
  && (ek_FileOffset b <? ek_FileOffset a + ek_Size a).

Definition ek_sameExtent (a b : ExtentKey) : bool :=
  (ek_PartitionId a =? ek_PartitionId b) && (ek_ExtentId a =? ek_ExtentId b)
  && (ek_ExtentOffset a =? ek_ExtentOffset b).

Definition AppendExtentWithCheck_conflicts (i : Inode) (_ : Z) (_ : list (Z * Z)) (_ : Z)
           (ek : ExtentKey) (_ : Z) (_ : list ExtentKey) (_ : Z)
  : Inode * list ExtentKey * Status :=
  if existsb (fun e => ek_overlap e ek && negb (ek_sameExtent e ek)) (ino_Extents i)
  then (i, [], OpConflictExtentsErr)
  else (mkInode (ino_Inode i) (ino_Type i) (ino_Uid i) (ino_Size i) (ino_AccessTime i)
                (ino_ModifyTime i) (ino_NLink i) (ino_deleteMark i)
                (ino_Extents i ++ [ek]) (ino_verSeq i) (ino_multiVersions i),
        [], OpOk).

(** Scenario S6: inode 101 holds (0, 4096, ekA); the command appends
    (0, 4096, ekB). *)
Definition ekA : ExtentKey := mkExtentKey 0 1 1001 0 4096 0 false.
Definition ekB : ExtentKey := mkExtentKey 0 1 1002 0 4096 0 false.

Definition partitionS6 : @metaPartition noManagers noManagers noManagers :=
  mkMetaPartition
    [dirInode 100 3 false; fileInode 101 1 [ekA]]
    [liveDentry 100 "a" 101 fileMode]
    [] [] 0 [] 0 [] tt tt tt [] [] [].

Definition appendS6 : @metaPartition noManagers noManagers noManagers * Status :=
  fsmAppendExtentsWithCheck no_addUidSpace no_minusUidSpace no_updateUsedInfo
    (fun id => id <=? 64) 134217728 AppendExtentWithCheck_conflicts
    no_SplitExtentWithCheck no_DecSplitExts partitionS6 (fileInode 101 1 [ekB]) false.

(** Three files without links; 102 has a rollback record of the pending
    transaction T, whose dentry ledger is still empty. *)
Definition partitionInTx : @metaPartition noManagers noManagers noManagers :=
  mkMetaPartition
    [dirInode 100 4 false; fileInode 101 0 []; fileInode 102 0 []; fileInode 103 0 []]
    [liveDentry 100 "a" 101 fileMode; liveDentry 100 "b" 102 fileMode]
    [] [] 0 [] 0 [] tt tt tt [] [(102, "T"%string)] [("T"%string, TxUnknown)].

Definition txInfoT : TxInfo :=
  mkTxInfo "T" 0 [((100, "a"%string), mkTxDentryInfo 100 "a" "T")].

(** *** The statements on the scenarios *)

Lemma readDirLimit_page_witness :
  0 <= rdl_ParentID (mkReadDirLimitReq 100 "b" 1 0 0) < MaxUint64
  /\ tree_wf (dentryTree partitionAB)
  /\ readDirLimit 0 no_isEffective partitionAB (mkReadDirLimitReq 100 "b" 1 0 0)
     = [mkProtoDentry "b" 102 fileMode]
  /\ StronglySorted (fun a b => String.ltb (pd_Name a) (pd_Name b) = true)
       (readDirLimit 0 no_isEffective partitionAB (mkReadDirLimitReq 100 "b" 1 0 0)).
Proof.
  assert (B : 0 <= rdl_ParentID (mkReadDirLimitReq 100 "b" 1 0 0) < MaxUint64)
    by (unfold MaxUint64; simpl; lia).
  assert (W : tree_wf (dentryTree partitionAB))
    by (repeat constructor).
  destruct (readDirLimit_page 0 no_isEffective partitionAB
                              (mkReadDirLimitReq 100 "b" 1 0 0) B) as (E & _ & _ & S).
  split; [ exact B | ]. split; [ exact W | ]. split; [ | exact (S W) ].
  rewrite E. reflexivity.
Defined.

Lemma fsmDeleteDentry_checked_witness :
  getSeqFiled deleteA = 0
  /\ verSeq partitionAB = 0
  /\ exists mp',
       fsmDeleteDentry 7 no_deleteVerSnapshot no_checkAndUpdateVerList partitionAB deleteA true
       = (mp', mkDentryResponse OpOk (Some (liveDentry 100 "a" 101 fileMode)))
       /\ BTree_Get deleteA (dentryTree mp') = None
       /\ BTree_Get (NewInode 100 0) (inodeTree mp')
          = Some (mkInode 100 dirMode 0 0 0 7 3 false [] 0 []).
Proof.
  split; [ reflexivity | ]. split; [ reflexivity | ].
  pose proof (fsmDeleteDentry_checked 7 no_deleteVerSnapshot no_checkAndUpdateVerList
                                      partitionAB deleteA eq_refl) as T.
  change (BTree_Get deleteA (dentryTree partitionAB))
    with (Some (liveDentry 100 "a" 101 fileMode)) in T.
  cbv beta iota in T. 
  change (negb (den_Inode (liveDentry 100 "a" 101 fileMode) =? den_Inode deleteA))
    with false in T.
  cbv beta iota in T.
  destruct (T eq_refl) as (mp' & E & G & _ & P).
  exists mp'. split; [ exact E | ]. split; [ exact G | ].
  change (BTree_Get (NewInode (den_ParentId deleteA) 0) (inodeTree partitionAB))
    with (Some (dirInode 100 4 false)) in P.
  cbv beta iota in P.
  change (ShouldDelete (dirInode 100 4 false)) with false in P.
  cbv beta iota in P.
  destruct P as (P & _). exact P.
Defined.

Lemma fsmExtentsTruncate_directory_witness :
  BTree_Get (NewInode 100 0) (inodeTree partitionAB) = Some (dirInode 100 4 false)
  /\ ShouldDelete (dirInode 100 4 false) = false
  /\ IsDir (ino_Type (dirInode 100 4 false)) = true
  /\ fsmExtentsTruncate no_minusUidSpace no_updateUsedInfo no_DecSplitExts
                        no_CreateLowerVersion no_ExtentsTruncate no_RestoreExts2NextLayer
                        partitionAB (NewInode 100 0)
     = Some (partitionAB, mkInodeResponse OpArgMismatchErr None).
Proof.
  split; [ reflexivity | ]. split; [ reflexivity | ]. split; [ reflexivity | ].
  exact (fsmExtentsTruncate_directory no_minusUidSpace no_updateUsedInfo no_DecSplitExts
           no_CreateLowerVersion no_ExtentsTruncate no_RestoreExts2NextLayer
           partitionAB (NewInode 100 0) (dirInode 100 4 false) eq_refl eq_refl eq_refl).
Defined.


Lemma fsmAppendExtentsWithCheck_conflict_witness :
  BTree_CopyGet (fileInode 101 1 [ekB]) (inodeTree partitionS6) = Some (fileInode 101 1 [ekA])
  /\ AppendExtentWithCheck_conflicts (fileInode 101 1 [ekA]) 0 [] 0 ekB 0 [] 0
     = (fileInode 101 1 [ekA], [], OpConflictExtentsErr)
  /\ snd appendS6 = OpConflictExtentsErr
  /\ extDelCh (fst appendS6) = [[ekB]; [ekB]]
  /\ BTree_Get (NewInode 101 0) (inodeTree (fst appendS6)) = Some (fileInode 101 1 [ekA]).
Proof.
  split; [ reflexivity | ]. split; [ reflexivity | ].
  destruct (fsmAppendExtentsWithCheck_conflict
              no_addUidSpace no_minusUidSpace no_updateUsedInfo
              (fun id => id <=? 64) 134217728 AppendExtentWithCheck_conflicts
              no_SplitExtentWithCheck no_DecSplitExts partitionS6
              (fileInode 101 1 [ekB]) (fileInode 101 1 [ekA]) (fileInode 101 1 [ekA])
              ekB [] [] tt eq_refl eq_refl eq_refl eq_refl eq_refl) as [S C].
  split; [ exact S | ]. split; [ exact C | ]. reflexivity.
Defined.

Lemma tx_prepare_dentry_witness :
  txInRMDone partitionInTx "T" = false
  /\ fsmTxCreateDentry 7 partitionInTx (mkTxDentry (liveDentry 100 "a" 105 fileMode) txInfoT)
     = (partitionInTx, OpExistErr)
  /\ fsmTxDeleteDentry partitionInTx (mkTxDentry (liveDentry 100 "a" 105 fileMode) txInfoT)
     = (partitionInTx, NewDentryResponse OpNotExistErr).
Proof.
  destruct (tx_prepare_dentry 7 partitionInTx
              (mkTxDentry (liveDentry 100 "a" 105 fileMode) txInfoT))
    as (_ & _ & C & D & _ & _).
  split; [ reflexivity | ]. split.
  - apply (C (mkTxDentryInfo 100 "a" "T") OpExistErr eq_refl eq_refl eq_refl eq_refl).
    discriminate.
  - apply (D (mkTxDentryInfo 100 "a" "T") eq_refl eq_refl eq_refl).
    right. exists (liveDentry 100 "a" 101 fileMode). split; [ reflexivity | ].
    vm_compute. discriminate.
Defined.

(** Scenario S1: directory 100 (nlink 2) and file 101; after
    createDentry (100, "a", 101) the directory lists "a" and has nlink 3. *)
Definition partitionS1 : @metaPartition noManagers noManagers noManagers :=
  mkMetaPartition [dirInode 100 2 false; fileInode 101 1 []] []
                  [] [] 0 [] 0 [] tt tt tt [] [] [].

Example scenario_S1 :
  snd (fsmCreateDentry 7 partitionS1 (liveDentry 100 "a" 101 fileMode) false) = OpOk
  /\ readDirLimit 0 no_isEffective
       (fst (fsmCreateDentry 7 partitionS1 (liveDentry 100 "a" 101 fileMode) false))
       (mkReadDirLimitReq 100 "" 0 0 0)
     = [mkProtoDentry "a" 101 fileMode]
  /\ option_map ino_NLink
       (BTree_Get (NewInode 100 0)
          (inodeTree (fst (fsmCreateDentry 7 partitionS1
                             (liveDentry 100 "a" 101 fileMode) false))))
     = Some 3.
Proof. repeat split; reflexivity. Qed.
